(** * tracefs: a shallow embedding of [tracefs.go] and its specification

    The Go package wraps the kernel trace filesystem.  Its own code is a
    thin layer of path derivation, text encoding and single system calls,
    so the embedding has three layers:

    - the Go library functions the package calls ([filepath.Join],
      [bytes.TrimSpace], the [%s] and [%016x] verbs of [fmt]);
    - a small model of the operating system: a world holding the
      filesystem, the open descriptors and the log of calls made;
    - the package itself, function by function, in a state monad over
      that world. *)

From Stdlib Require Import NArith Ascii String.
From stdpp Require Import gmap strings list sorting.

Local Open Scope N_scope.
Local Open Scope nat_scope.

(** ** Byte strings

    Go strings and byte slices are sequences of bytes; both are modelled
    by [string], whose characters are the 256 byte values. *)

Definition byte_eqb (a b : ascii) : bool := Ascii.eqb a b.

Definition string_eqb (a b : string) : bool := String.eqb a b.

Definition is_empty (s : string) : bool :=
  match s with EmptyString => true | String _ _ => false end.

Fixpoint contains_byte (c : ascii) (s : string) : bool :=
  match s with
  | EmptyString => false
  | String d s' => byte_eqb c d || contains_byte c s'
  end.

(** [strings.Join(elems, sep)] *)
Fixpoint strings_Join (elems : list string) (sep : string) : string :=
  match elems with
  | [] => ""
  | [e] => e
  | e :: rest => e +:+ sep +:+ strings_Join rest sep
  end.

(** ** [path/filepath] on Unix *)
Module filepath.

Definition Separator : ascii := "/"%char.

Definition IsPathSeparator (c : ascii) : bool := byte_eqb c Separator.

(** The elements of a path: the pieces between separators, empty pieces
    included, so that ["/a//b"] has the elements [""], ["a"], [""],
    ["b"]. *)
Fixpoint elements (path : string) : list string :=
  match path with
  | EmptyString => [""]
  | String c rest =>
      if IsPathSeparator c then "" :: elements rest
      else match elements rest with
           | e :: es => String c e :: es
           | [] => [String c ""]
           end
  end.

Definition rooted (path : string) : bool :=
  match path with
  | String c _ => IsPathSeparator c
  | EmptyString => false
  end.

(** The output buffer of [Clean], one path element per entry, the last
    one written first; [dotdot] counts the entries that a [".."] must
    not remove (a leading run of [".."] of a relative path). *)
Record lazybuf := { out : list string; dotdot : nat }.

(** One turn of the loop of [Clean], on the element starting at the
    read position. *)
Definition clean_step (is_rooted : bool) (b : lazybuf) (e : string) : lazybuf :=
  if string_eqb e "" then b
  else if string_eqb e "." then b
  else if string_eqb e ".." then
    if dotdot b <? length (out b) then
      {| out := tail (out b); dotdot := dotdot b |}
    else if negb is_rooted then
      {| out := ".." :: out b; dotdot := S (length (out b)) |}
    else b
  else {| out := e :: out b; dotdot := dotdot b |}.

Definition clean_loop (is_rooted : bool) (es : list string) : lazybuf :=
  fold_left (clean_step is_rooted) es {| out := []; dotdot := 0 |}.

Definition render (is_rooted : bool) (written : list string) : string :=
  if is_rooted then String Separator (strings_Join (rev written) "/")
  else match written with
       | [] => "."
       | _ => strings_Join (rev written) "/"
       end.

(** [filepath.Clean]: the shortest path name equivalent to [path] by
    purely lexical processing. *)
Definition Clean (path : string) : string :=
  if is_empty path then "."
  else render (rooted path) (out (clean_loop (rooted path) (elements path))).

(** [filepath.Join]: leading empty elements are ignored, the rest is
    joined with the separator and cleaned; all empty gives [""]. *)
Fixpoint Join (elem : list string) : string :=
  match elem with
  | [] => ""
  | e :: rest =>
      if is_empty e then Join rest
      else Clean (strings_Join elem "/")
  end.

(** [filepath.Dir], used by the model of the operating system to find
    the directory an entry lives in. *)
Definition Dir (path : string) : string :=
  match rev (elements path) with
  | _ :: inits => Clean (strings_Join (rev inits) "/" +:+
                         (if rooted path then "/" else ""))
  | [] => "."
  end.

End filepath.

(** ** [fmt]: the verbs the package uses *)
Module fmt.

Definition ldigits : string := "0123456789abcdefx".

Definition digit (d : N) : ascii :=
  match String.get (N.to_nat d) ldigits with
  | Some c => c
  | None => "?"%char
  end.

(** The base 16 loop of [fmtInteger], which fills the buffer from its
    end: [buf] is the part already written.  A [uint64] has at most 16
    hexadecimal digits, which bounds the number of turns. *)
Fixpoint hex_loop (turns : nat) (u : N) (buf : string) : string :=
  match turns with
  | 0 => buf
  | S turns' =>
      if (16 <=? u)%N
      then hex_loop turns' (N.shiftr u 4) (String (digit (N.land u 15)) buf)
      else String (digit u) buf
  end.

Fixpoint pad_left (c : ascii) (n : nat) (s : string) : string :=
  match n with
  | 0 => s
  | S n' => String c (pad_left c n' s)
  end.

(** [fmtInteger] in base 16 for an unsigned value without sign or
    precision: with the zero flag and a width the digits are filled up
    with zeroes to the width, with a width alone with spaces. *)
Definition fmtInteger16 (zero : bool) (wid : option nat) (u : N) : string :=
  let digits := hex_loop 16 u "" in
  let prec := if zero then default 0 wid else 0 in
  let zeroed := pad_left "0" (prec - String.length digits) digits in
  pad_left " " (default 0 wid - String.length zeroed) zeroed.

(** A format string, read off the source: literal text and verbs with
    their operands. *)
Inductive directive :=
| text (s : string)
| verb_s (operand : string)
| verb_x (zero : bool) (wid : option nat) (operand : N).

Definition format (d : directive) : string :=
  match d with
  | text s => s
  | verb_s s => s
  | verb_x zero wid u => fmtInteger16 zero wid u
  end.

Fixpoint Sprintf (ds : list directive) : string :=
  match ds with
  | [] => ""
  | d :: ds' => format d +:+ Sprintf ds'
  end.

(** [fmt.Fprintf] into a [strings.Builder], whose content so far is
    [builder]. *)
Definition Fprintf (builder : string) (ds : list directive) : string :=
  builder +:+ Sprintf ds.

End fmt.

(** ** [bytes.TrimSpace] *)
Module bytes.

Definition RuneSelf : N := 128.

(** The table [asciiSpace]: tab, newline, vertical tab, form feed,
    carriage return and space. *)
Definition asciiSpace (c : ascii) : bool :=
  match N_of_ascii c with
  | 9%N | 10%N | 11%N | 12%N | 13%N | 32%N => true
  | _ => false
  end.

(** How one of the two scanning loops of [TrimSpace] ends: at a byte
    that is not a space or at the end of the slice ([Stop], with what
    is left), or at a byte outside ASCII ([NonASCII], with what is left
    including that byte). *)
Inductive scan :=
| Stop (rest : string)
| NonASCII (rest : string).

Fixpoint scan_start (s : string) : scan :=
  match s with
  | EmptyString => Stop ""
  | String c s' =>
      if (RuneSelf <=? N_of_ascii c)%N then NonASCII s
      else if asciiSpace c then scan_start s'
      else Stop s
  end.

(** The loop from the end.  The recursive call has dealt with the bytes
    after [c]; when it has consumed them all, [c] is the byte at
    [stop-1]. *)
Fixpoint scan_stop (s : string) : scan :=
  match s with
  | EmptyString => Stop ""
  | String c s' =>
      match scan_stop s' with
      | NonASCII rest => NonASCII (String c rest)
      | Stop (String d rest) => Stop (String c (String d rest))
      | Stop EmptyString =>
          if (RuneSelf <=? N_of_ascii c)%N then NonASCII (String c "")
          else if asciiSpace c then Stop ""
          else Stop (String c "")
      end
  end.

Section TrimSpace.

(** [TrimFunc(s, unicode.IsSpace)], the path [TrimSpace] takes once
    it meets a byte outside ASCII.  It decodes UTF-8 and consults the
    Unicode tables; nothing proved here depends on what it
    returns. *)
Variable TrimFunc_IsSpace : string -> string.

Definition TrimSpace (s : string) : string :=
  match scan_start s with
  | NonASCII rest => TrimFunc_IsSpace rest
  | Stop rest =>
      match scan_stop rest with
      | NonASCII rest' => TrimFunc_IsSpace rest'
      | Stop rest' => rest'
      end
  end.

End TrimSpace.

End bytes.

(** ** Errors

    A Go [error] is either [nil] or a value; [option error] with [None]
    for [nil]. *)
Inductive Errno := ENOENT | EEXIST | ENOTDIR | EISDIR | ENOTEMPTY | EBADF.

Inductive error :=
| errorString (msg : string)                      (* [fmt.Errorf], [errors.New] *)
| PathError (op path : string) (errno : Errno)    (* [*fs.PathError] *)
| ErrClosed                                       (* [os.ErrClosed] *)
| ErrInvalid.                                     (* [os.ErrInvalid] *)

(** [fmt.Errorf] *)
Definition Errorf (ds : list fmt.directive) : option error :=
  Some (errorString (fmt.Sprintf ds)).

(** ** The operating system

    What the package needs of it: whole-file read and write, directory
    listing, creation and removal, and files opened for writing.  Names
    are resolved lexically (no symbolic links, no working directory), and
    permission bits are stored as requested. *)
Module os.

Inductive Node :=
| File (mode : N) (data : string)
| Directory (mode : N).

Definition O_WRONLY : N := 1.
Definition O_RDWR : N := 2.
Definition O_CREATE : N := 64.
Definition O_EXCL : N := 128.
Definition O_TRUNC : N := 512.
Definition O_APPEND : N := 1024.

Definition has_flag (flag bit : N) : bool := negb (N.land flag bit =? 0)%N.

Definition writable (flag : N) : bool :=
  has_flag flag O_WRONLY || has_flag flag O_RDWR.

(** An open file description. *)
Record Description := { d_name : string; d_flag : N; d_offset : nat }.

(** The calls made to the operating system, as the log keeps them. *)
Inductive Call :=
| call_ReadFile (name : string)
| call_WriteFile (name data : string) (perm : N)
| call_ReadDir (name : string)
| call_Mkdir (name : string) (perm : N)
| call_Remove (name : string)
| call_OpenFile (name : string) (flag perm : N)
| call_Write (fd : nat) (data : string)
| call_Close (fd : nat).

Record World := {
  nodes : gmap string Node;
  open_files : gmap nat Description;
  next_fd : nat;
  calls : list Call
}.

(** Computations that may call the operating system. *)
Definition M (A : Type) : Type := World -> A * World.

Definition ret {A} (a : A) : M A := fun w => (a, w).

Definition bind {A B} (c : M A) (k : A -> M B) : M B :=
  fun w => let (a, w') := c w in k a w'.

Definition log (c : Call) : M unit :=
  fun w => (tt, {| nodes := nodes w; open_files := open_files w;
                   next_fd := next_fd w; calls := calls w ++ [c] |}).

Definition get_nodes : M (gmap string Node) := fun w => (nodes w, w).

Definition put_nodes (ns : gmap string Node) : M unit :=
  fun w => (tt, {| nodes := ns; open_files := open_files w;
                   next_fd := next_fd w; calls := calls w |}).

Definition get_open (fd : nat) : M (option Description) :=
  fun w => (open_files w !! fd, w).

Definition put_open (fd : nat) (d : option Description) : M unit :=
  fun w => (tt, {| nodes := nodes w;
                   open_files := match d with
                                 | Some d => <[fd := d]> (open_files w)
                                 | None => delete fd (open_files w)
                                 end;
                   next_fd := next_fd w; calls := calls w |}).

Definition fresh_fd : M nat :=
  fun w => (next_fd w, {| nodes := nodes w; open_files := open_files w;
                          next_fd := S (next_fd w); calls := calls w |}).

End os.

Notation "'do' x <- c ; k" := (os.bind c (fun x => k))
  (at level 10, x name, c at level 100, k at level 200).
Notation "'do' ' ( x , y ) <- c ; k" := (os.bind c (fun '(x, y) => k))
  (at level 10, x name, y name, c at level 100, k at level 200).
Notation "c ;; k" := (os.bind c (fun _ => k))
  (at level 100, k at level 200, right associativity).

Module sys.
Import os.

(** A name a directory entry can have. *)
Definition entry_name (n : string) : bool :=
  negb (string_eqb n "") && negb (string_eqb n ".") && negb (string_eqb n "..")
  && negb (contains_byte filepath.Separator n).

(** The name under which [key] is an entry of the directory [dir]. *)
Definition entry_of (dir key : string) : option string :=
  let n := default "" (last (filepath.elements key)) in
  if entry_name n && string_eqb (filepath.Join [dir; n]) key then Some n else None.

Definition entries (dir : string) (ns : gmap string Node) : list string :=
  merge_sort String.le
             (omap (fun kv => entry_of dir (fst kv)) (map_to_list ns)).

(** The directory [name] is to be created in, if it is there. *)
Definition parent_error (op name : string) (ns : gmap string Node) : option error :=
  match ns !! filepath.Dir name with
  | Some (Directory _) => None
  | Some (File _ _) => Some (PathError op name ENOTDIR)
  | None => Some (PathError op name ENOENT)
  end.

Definition ReadFile (name : string) : M (string * option error) :=
  log (call_ReadFile name);;
  do ns <- get_nodes;
  match ns !! filepath.Clean name with
  | Some (File _ data) => ret (data, None)
  | Some (Directory _) => ret ("", Some (PathError "read" name EISDIR))
  | None => ret ("", Some (PathError "open" name ENOENT))
  end.

(** [os.WriteFile]: create or truncate, then write. *)
Definition WriteFile (name data : string) (perm : N) : M (option error) :=
  log (call_WriteFile name data perm);;
  do ns <- get_nodes;
  let key := filepath.Clean name in
  match ns !! key with
  | Some (File mode _) => put_nodes (<[key := File mode data]> ns);; ret None
  | Some (Directory _) => ret (Some (PathError "open" name EISDIR))
  | None =>
      match parent_error "open" name ns with
      | Some e => ret (Some e)
      | None => put_nodes (<[key := File perm data]> ns);; ret None
      end
  end.

Record DirEntry := { Name : string }.

(** [os.ReadDir]: the entries of the directory, sorted by name. *)
Definition ReadDir (name : string) : M (list DirEntry * option error) :=
  log (call_ReadDir name);;
  do ns <- get_nodes;
  let key := filepath.Clean name in
  match ns !! key with
  | Some (Directory _) => ret (map Build_DirEntry (entries key ns), None)
  | Some (File _ _) => ret ([], Some (PathError "readdirent" name ENOTDIR))
  | None => ret ([], Some (PathError "open" name ENOENT))
  end.

Definition Mkdir (name : string) (perm : N) : M (option error) :=
  log (call_Mkdir name perm);;
  do ns <- get_nodes;
  let key := filepath.Clean name in
  match ns !! key with
  | Some _ => ret (Some (PathError "mkdir" name EEXIST))
  | None =>
      match parent_error "mkdir" name ns with
      | Some e => ret (Some e)
      | None => put_nodes (<[key := Directory perm]> ns);; ret None
      end
  end.

Definition Remove (name : string) : M (option error) :=
  log (call_Remove name);;
  do ns <- get_nodes;
  let key := filepath.Clean name in
  match ns !! key with
  | None => ret (Some (PathError "remove" name ENOENT))
  | Some (File _ _) => put_nodes (delete key ns);; ret None
  | Some (Directory _) =>
      match entries key ns with
      | [] => put_nodes (delete key ns);; ret None
      | _ :: _ => ret (Some (PathError "remove" name ENOTEMPTY))
      end
  end.

Definition open_description (name : string) (flag : N) : M (option nat * option error) :=
  do fd <- fresh_fd;
  put_open fd (Some {| d_name := filepath.Clean name; d_flag := flag; d_offset := 0 |});;
  ret (Some fd, None).

(** [os.OpenFile]; the file it returns is a descriptor number, [None]
    for the nil file. *)
Definition OpenFile (name : string) (flag perm : N) : M (option nat * option error) :=
  log (call_OpenFile name flag perm);;
  do ns <- get_nodes;
  let key := filepath.Clean name in
  match ns !! key with
  | Some (File mode data) =>
      if has_flag flag O_CREATE && has_flag flag O_EXCL
      then ret (None, Some (PathError "open" name EEXIST))
      else
        (if has_flag flag O_TRUNC && writable flag
         then put_nodes (<[key := File mode ""]> ns) else ret tt);;
        open_description name flag
  | Some (Directory _) =>
      if writable flag || has_flag flag O_CREATE
      then ret (None, Some (PathError "open" name EISDIR))
      else open_description name flag
  | None =>
      if has_flag flag O_CREATE then
        match parent_error "open" name ns with
        | Some e => ret (None, Some e)
        | None => put_nodes (<[key := File perm ""]> ns);; open_description name flag
        end
      else ret (None, Some (PathError "open" name ENOENT))
  end.

(** [data] written at [offset] into [old], which is filled up with zero
    bytes when it is shorter than the offset. *)
Definition write_at (offset : nat) (old data : string) : string :=
  let before := substring 0 offset old in
  fmt.pad_left "000" (offset - String.length before) "" +:+ before +:+ data
  +:+ substring (offset + String.length data) (String.length old) old.

(** The method [Write] of an open file. *)
Definition Write (fd : nat) (data : string) : M (nat * option error) :=
  log (call_Write fd data);;
  do d <- get_open fd;
  match d with
  | None => ret (0, Some ErrClosed)
  | Some d =>
      if negb (writable (d_flag d))
      then ret (0, Some (PathError "write" (d_name d) EBADF))
      else
        do ns <- get_nodes;
        match ns !! d_name d with
        | Some (File mode old) =>
            let offset := if has_flag (d_flag d) O_APPEND
                          then String.length old else d_offset d in
            put_nodes (<[d_name d := File mode (write_at offset old data)]> ns);;
            put_open fd (Some {| d_name := d_name d; d_flag := d_flag d;
                                 d_offset := offset + String.length data |});;
            ret (String.length data, None)
        | _ => ret (String.length data, None)
        end
  end.

(** The method [Close] of an open file. *)
Definition Close (fd : nat) : M (option error) :=
  log (call_Close fd);;
  do d <- get_open fd;
  match d with
  | None => ret (Some ErrClosed)
  | Some _ => put_open fd None;; ret None
  end.

End sys.

(** ** The package *)
Module tracefs.
Import os.

Record Instance := { isRoot : bool; path : string; name : string }.

(** The zero value of [Instance], as [make] fills a slice with. *)
Definition zero_Instance : Instance := {| isRoot := false; path := ""; name := "" |}.

Definition rootPath : string := "/sys/kernel/tracing".

Definition Instance_Name (i : Instance) : string := name i.

Definition RootInstance (path : string) : Instance :=
  {| isRoot := true; name := "*Default*"; path := path |}.

Definition DefaultInstance : Instance := RootInstance rootPath.

(** The loop of [ChildInstances]: [out[i] = Instance{...}] for each
    entry [e] at index [i]. *)
Fixpoint fill_children (instanceDir : string) (i : nat) (entries : list sys.DirEntry)
    (out : list Instance) : list Instance :=
  match entries with
  | [] => out
  | e :: rest =>
      fill_children instanceDir (S i) rest
        (<[i := {| isRoot := false; name := sys.Name e;
                   path := filepath.Join [instanceDir; sys.Name e] |}]> out)
  end.

Definition ChildInstances (i : Instance) : M (list Instance * option error) :=
  if negb (isRoot i) then
    ret ([], Errorf [fmt.text "Cannot get ChildInstances for non-root instance"])
  else
    let instanceDir := filepath.Join [path i; "instances"] in
    do '(entries, err) <- sys.ReadDir instanceDir;
    match err with
    | Some _ => ret ([], err)
    | None =>
        let out := replicate (length entries) zero_Instance in
        ret (fill_children instanceDir 0 entries out, None)
    end.

Definition ListInstances : M (list Instance * option error) :=
  ChildInstances DefaultInstance.

Definition Tracer := string.

Definition FunctionTracer : Tracer := "function".
Definition WakeupTracer : Tracer := "wakeup".
Definition WakeupRTTracer : Tracer := "wakeup_rt".
Definition WakeupDLTracer : Tracer := "wakup_dl".
Definition FunctionGraphTracer : Tracer := "function_graph".
Definition MMIOTraceTracer : Tracer := "mmiotrace".
Definition BlkTracer : Tracer := "blk".
Definition HWLatTracer : Tracer := "hwlat".

Definition writeFile (i : Instance) (name b : string) : M (option error) :=
  sys.WriteFile (filepath.Join [path i; name]) b 511.

Definition curTracerPath : string := "current_tracer".
Definition tracingOnPath : string := "tracing_on".

Definition SetTracer (i : Instance) (t : Tracer) : M (option error) :=
  writeFile i curTracerPath t.

Definition Enable (i : Instance) : M (option error) :=
  writeFile i tracingOnPath "1".

Definition Disable (i : Instance) : M (option error) :=
  writeFile i tracingOnPath "0".

(** The method [NewInstance]; the instance it returns is [None] for the
    nil pointer. *)
Definition NewInstance (i : Instance) (name : string) : M (option Instance * option error) :=
  if negb (isRoot i) then
    ret (None, Errorf [fmt.text "must be called on a root instance"])
  else
    let childPath := filepath.Join [path i; "instances"; name] in
    do err <- sys.Mkdir childPath 511;
    match err with
    | Some _ => ret (None, err)
    | None => ret (Some {| isRoot := false; path := childPath; name := name |}, None)
    end.

(** The package-level function of the same name. *)
Definition NewInstance_default (name : string) : M (option Instance * option error) :=
  NewInstance DefaultInstance name.

Definition Destroy (i : Instance) : M (option error) :=
  if isRoot i then
    ret (Errorf [fmt.text "cannot destroy the root tracer instance"])
  else sys.Remove (path i).

(** A fetch argument is a value with the methods [Type] and [String];
    both take no argument, the record holds what they return. *)
Record FetchArg := { FetchArg_Type : string; FetchArg_String : string }.

Record fetchRegister := { register : string }.

Definition fetchRegister_String (f : fetchRegister) : string := register f.

Record UprobeEvent := {
  ReturnProbe : bool;
  Group : string;
  Event : string;
  Path : string;
  Offset : N;                       (* [uint64] *)
  FetchArgs : list FetchArg
}.

Definition Rule (e : UprobeEvent) : string :=
  let typ := if ReturnProbe e then "r" else "p" in
  let builder := "" in
  let builder := builder +:+ typ in
  let builder :=
    if negb (is_empty (Group e)) && negb (is_empty (Event e)) then
      fmt.Fprintf builder [fmt.text ":"; fmt.verb_s (Group e); fmt.text "/"; fmt.verb_s (Event e)]
    else if negb (is_empty (Event e)) then
      fmt.Fprintf builder [fmt.text ":"; fmt.verb_s (Event e)]
    else builder in
  let builder :=
    fmt.Fprintf builder [fmt.text " "; fmt.verb_s (Path e); fmt.text ":0x";
                         fmt.verb_x true (Some 16) (Offset e)] in
  let builder :=
    fold_left (fun b arg => fmt.Fprintf b [fmt.text " "; fmt.verb_s (FetchArg_String arg)])
              (FetchArgs e) builder in
  builder.



Definition UprobeEnablePath (i : Instance) (e : UprobeEvent) : string :=
  if negb (is_empty (Group e)) && negb (is_empty (Event e)) then
    filepath.Join [path i; "events"; Group e; Event e; "enable"]
  else if negb (is_empty (Event e)) then
    filepath.Join [path i; "events"; "uprobes"; Event e; "enable"]
  else filepath.Join [path i; "events"; "uprobes"; "enable"].

Definition EnableUprobe (i : Instance) (e : UprobeEvent) : M (option error) :=
  writeFile i (UprobeEnablePath i e) "1".

Definition DisableUprobe (i : Instance) (e : UprobeEvent) : M (option error) :=
  writeFile i (UprobeEnablePath i e) "0".

Section Reads.

(** The Unicode path of [bytes.TrimSpace]. *)
Variable TrimFunc_IsSpace : string -> string.

Definition readFile (i : Instance) (name : string) : M (string * option error) :=
  do '(data, err) <- sys.ReadFile (filepath.Join [path i; name]);
  match err with
  | Some _ => ret ("", err)
  | None => ret (bytes.TrimSpace TrimFunc_IsSpace data, None)
  end.

Definition CurrentTracer (i : Instance) : M (Tracer * option error) :=
  do '(tracer, err) <- readFile i curTracerPath;
  match err with
  | Some _ => ret ("", err)
  | None => ret (tracer, None)
  end.

Definition On (i : Instance) : M (bool * option error) :=
  do '(result, err) <- readFile i tracingOnPath;
  match err with
  | Some _ => ret (false, err)
  | None =>
      if string_eqb result "0" then ret (false, None)
      else if string_eqb result "1" then ret (true, None)
      else ret (false, Errorf [fmt.text "unknown on value: "; fmt.verb_s result])
  end.

End Reads.

End tracefs.

(** ** A world to run the package in *)
Definition tracing_nodes : gmap string os.Node :=
  list_to_map
    [ ("/", os.Directory 493);
      ("/sys", os.Directory 493);
      ("/sys/kernel", os.Directory 493);
      ("/sys/kernel/tracing", os.Directory 448);
      ("/sys/kernel/tracing/instances", os.Directory 488);
      ("/sys/kernel/tracing/instances/foo", os.Directory 488);
      ("/sys/kernel/tracing/instances/bar", os.Directory 488);
      ("/sys/kernel/tracing/instances/foo/tracing_on", os.File 416 ("0" +:+ String "010" ""));
      ("/sys/kernel/tracing/tracing_on", os.File 416 ("1" +:+ String "010" ""));
      ("/sys/kernel/tracing/current_tracer", os.File 416 ("nop" +:+ String "010" ""));
      ("/sys/kernel/tracing/events", os.Directory 488);
      ("/sys/kernel/tracing/events/uprobes", os.Directory 488);
      ("/sys/kernel/tracing/events/uprobes/enable", os.File 416 ("0" +:+ String "010" "")) ].

Definition tracing_world : os.World :=
  {| os.nodes := tracing_nodes; os.open_files := ∅; os.next_fd := 3; os.calls := [] |}.

(** ** The rule grammar of the specification

    [<type> [':' [<group> '/'] <event>] ' ' <path> ':0x' <16 hex digits>
    [' ' <fetch-arg>]*], read back from a line.  This section follows the
    grammar as the specification gives it, not the code. *)
Module grammar.

(** [s] cut at the first [c]: what is before it, and what is after it
    when [c] occurs. *)
Fixpoint cut (c : ascii) (s : string) : string * option string :=
  match s with
  | EmptyString => ("", None)
  | String d s' =>
      if byte_eqb c d then ("", Some s')
      else let (before, after) := cut c s' in (String d before, after)
  end.

Definition lower_hex_value (c : ascii) : option N :=
  let n := N_of_ascii c in
  if (48 <=? n)%N && (n <=? 57)%N then Some (n - 48)%N
  else if (97 <=? n)%N && (n <=? 102)%N then Some (n - 87)%N
  else None.

Definition lower_hex_digit (c : ascii) : bool :=
  match lower_hex_value c with Some _ => true | None => false end.

Fixpoint all_bytes (f : ascii -> bool) (s : string) : bool :=
  match s with
  | EmptyString => true
  | String c s' => f c && all_bytes f s'
  end.

(** The number a string of hexadecimal digits denotes, most significant
    digit first, continuing from [acc]. *)
Fixpoint hex_value (acc : N) (s : string) : N :=
  match s with
  | EmptyString => acc
  | String c s' => hex_value (acc * 16 + default 0%N (lower_hex_value c)) s'
  end.

(** A naming clause: an event with or without a group. *)
Record naming := { group : option string; event : string }.

Record rule := {
  type : ascii;
  name : option naming;
  binary : string;            (* <path> *)
  offset : string;            (* the 16 digits *)
  fetch_args : option string  (* what follows the offset, unparsed *)
}.

Definition parse_type (c : ascii) : option ascii :=
  if byte_eqb c "p" || byte_eqb c "r" then Some c else None.

Definition parse_naming (s : string) : option (option naming) :=
  match s with
  | EmptyString => Some None
  | String c s' =>
      if byte_eqb c ":" then
        match cut "/" s' with
        | (ev, None) =>
            if is_empty ev then None
            else Some (Some {| group := None; event := ev |})
        | (gr, Some ev) =>
            if is_empty gr || is_empty ev || contains_byte "/" ev then None
            else Some (Some {| group := Some gr; event := ev |})
        end
      else None
  end.

(** [<path> ':0x' <16 digits>]: the offset is the last 16 bytes of the
    word, the path what precedes the [":0x"] before them. *)
Definition parse_location (word : string) : option (string * string) :=
  let n := String.length word in
  if n <? 19 then None
  else
    let digits := substring (n - 16) 16 word in
    if string_eqb (substring (n - 19) 3 word) ":0x" && all_bytes lower_hex_digit digits
    then Some (substring 0 (n - 19) word, digits)
    else None.

Definition parse (line : string) : option rule :=
  match line with
  | EmptyString => None
  | String c rest =>
      match parse_type c, cut " " rest with
      | Some t, (clause, Some rest') =>
          let (word, args) := cut " " rest' in
          match parse_naming clause, parse_location word with
          | Some nm, Some (pth, digits) =>
              Some {| type := t; name := nm; binary := pth; offset := digits;
                      fetch_args := args |}
          | _, _ => None
          end
      | _, _ => None
      end
  end.

End grammar.

(** ** Names and paths the claims speak of *)

(** A path element that [Clean] copies: not empty, not ["."], not
    [".."]. *)
Definition regular_element (e : string) : bool :=
  negb (string_eqb e "") && negb (string_eqb e ".") && negb (string_eqb e "..").

(** A relative name all of whose elements are regular, such as ["probe1"]
    or ["a/b"]. *)
Definition regular_name (n : string) : bool :=
  forallb regular_element (filepath.elements n).

(** A path in the form [Clean] gives it that names neither the root
    directory nor the current one, such as ["/sys/kernel/tracing"]. *)
Definition clean_base (p : string) : bool :=
  string_eqb (filepath.Clean p) p && negb (string_eqb p "/") && negb (string_eqb p ".").

(** What the type [uint64] holds. *)
Definition uint64_range (u : N) : Prop := (u < 2 ^ 64)%N.

(** The bytes a rule gives a meaning of their own. *)
Definition valid_event (e : tracefs.UprobeEvent) : Prop :=
  contains_byte " " (tracefs.Group e) = false /\
  contains_byte "/" (tracefs.Group e) = false /\
  contains_byte " " (tracefs.Event e) = false /\
  contains_byte "/" (tracefs.Event e) = false /\
  contains_byte " " (tracefs.Path e) = false /\
  uint64_range (tracefs.Offset e).

(** The naming clause the specification gives an event. *)
Definition naming_clause (e : tracefs.UprobeEvent) : string :=
  if is_empty (tracefs.Event e) then ""
  else if is_empty (tracefs.Group e) then ":" +:+ tracefs.Event e
  else ":" +:+ tracefs.Group e +:+ "/" +:+ tracefs.Event e.

Definition naming_of (e : tracefs.UprobeEvent) : option grammar.naming :=
  if is_empty (tracefs.Event e) then None
  else if is_empty (tracefs.Group e)
       then Some {| grammar.group := None; grammar.event := tracefs.Event e |}
       else Some {| grammar.group := Some (tracefs.Group e); grammar.event := tracefs.Event e |}.

(** The fetch arguments as the rule shows them. *)
Fixpoint fetch_text (args : list tracefs.FetchArg) : string :=
  match args with
  | [] => ""
  | a :: rest => " " +:+ tracefs.FetchArg_String a +:+ fetch_text rest
  end.

(** ** Vocabulary of the claims and sample inputs *)
Section Vocabulary.
Import os bytes tracefs.

(** The separator in front of each name. *)
Fixpoint slashed (ns : list string) : string :=
  match ns with
  | [] => ""
  | n :: rest => "/" +:+ n +:+ slashed rest
  end.

Definition type_text (e : UprobeEvent) : string :=
  if ReturnProbe e then "r" else "p".

Definition location_text (e : UprobeEvent) : string :=
  Path e +:+ ":0x" +:+ fmt.fmtInteger16 true (Some 16) (Offset e).

Definition sample_event : UprobeEvent :=
  {| ReturnProbe := true; Group := "grp"; Event := "ev"; Path := "/bin/true";
     Offset := 256;
     FetchArgs := [ {| FetchArg_Type := "u64"; FetchArg_String := "%ax" |};
                    {| FetchArg_Type := "u64"; FetchArg_String := "%bx" |} ] |}.

Definition anonymous_probe : UprobeEvent :=
  {| ReturnProbe := true; Group := ""; Event := ""; Path := "/bin/true";
     Offset := 256; FetchArgs := [] |}.

(** A byte of ASCII that is not a space. *)
Definition ascii_nonspace (c : ascii) : bool :=
  (N_of_ascii c <? RuneSelf)%N && negb (asciiSpace c).

Fixpoint last_byte (s : string) : option ascii :=
  match s with
  | EmptyString => None
  | String c EmptyString => Some c
  | String _ s' => last_byte s'
  end.

(** Nothing to trim: empty, or an ASCII byte that is not a space at
    both ends. *)
Definition tight (s : string) : bool :=
  match s, last_byte s with
  | String c _, Some d => ascii_nonspace c && ascii_nonspace d
  | _, _ => true
  end.

Definition newline : string := String "010" "".

Definition not_root_ChildInstances : option error :=
  Some (errorString "Cannot get ChildInstances for non-root instance").

Definition not_root_NewInstance : option error :=
  Some (errorString "must be called on a root instance").

Definition root_Destroy : option error :=
  Some (errorString "cannot destroy the root tracer instance").

(** What the structural checks do on an instance that is not a root:
    the operations of the root fail before any call is made, [Destroy]
    goes on to remove the directory. *)
Definition structural_checks (c : Instance) : Prop :=
  forall w,
    ChildInstances c w = (([], not_root_ChildInstances), w) /\
    (forall m, NewInstance c m w = ((None, not_root_NewInstance), w)) /\
    Destroy c w = sys.Remove (path c) w.


Definition tracing_on_read : (string * option error) * World :=
  sys.ReadFile "/sys/kernel/tracing/tracing_on" tracing_world.


Definition probe1_made : option error * World :=
  sys.Mkdir "/sys/kernel/tracing/instances/probe1" 511 tracing_world.

Definition instances_read : (list sys.DirEntry * option error) * World :=
  sys.ReadDir "/sys/kernel/tracing/instances" tracing_world.


End Vocabulary.

(** ** Vocabulary of the properties of use *)
Section Usage.
Import os bytes tracefs.

(** An absolute path in clean form below the root directory, such as
    ["/sys/kernel/tracing"]: rooted, and every element after the root
    regular. *)
Definition absolute_clean (p : string) : bool :=
  filepath.rooted p && forallb regular_element (tail (filepath.elements p)).

(** The elements [UprobeEnablePath] joins to the path of the instance. *)
Definition switch_names (e : UprobeEvent) : list string :=
  if negb (is_empty (Group e)) && negb (is_empty (Event e)) then
    ["events"; Group e; Event e; "enable"]
  else if negb (is_empty (Event e)) then
    ["events"; "uprobes"; Event e; "enable"]
  else ["events"; "uprobes"; "enable"].

(** [Group] and [Event], where the rule and the switch use them, are
    made of regular elements. *)
Definition regular_naming (e : UprobeEvent) : bool :=
  forallb regular_name (switch_names e).

(** No newline in what [Rule] copies into the line. *)
Definition newline_free (e : UprobeEvent) : Prop :=
  contains_byte "010" (Group e) = false /\
  contains_byte "010" (Event e) = false /\
  contains_byte "010" (Path e) = false /\
  Forall (fun a => contains_byte "010" (FetchArg_String a) = false) (FetchArgs e).

(** The node of an instance a control file lives at. *)
Definition node_key (i : Instance) (node : string) : string :=
  filepath.Clean (filepath.Join [path i; node]).


End Usage.

(** * Checks on concrete inputs *)

Example Join_ex1 : filepath.Join ["/sys/kernel/tracing"; "instances"; "probe1"]
                   = "/sys/kernel/tracing/instances/probe1".
Proof. reflexivity. Qed.
Example Join_ex2 : filepath.Join ["/sys/kernel/tracing/"; "instances"; "a/../b/"]
                   = "/sys/kernel/tracing/instances/b".
Proof. reflexivity. Qed.
Example Join_ex3 : filepath.Join [""; ""; "../a"; ""] = "../a".
Proof. reflexivity. Qed.
Example Join_ex4 : filepath.Join ["/"; ".."; "x"] = "/x".
Proof. reflexivity. Qed.
Example Join_ex5 : filepath.Join ["a"; "../../.."; "b"] = "../../b".
Proof. reflexivity. Qed.
Example Clean_ex1 : filepath.Clean "a/.." = ".".
Proof. reflexivity. Qed.
Example Dir_ex1 : filepath.Dir "/a/b" = "/a" /\ filepath.Dir "/a" = "/" /\ filepath.Dir "a" = "."
   /\ filepath.Dir "/" = "/" /\ filepath.Dir "a/b" = "a".
Proof. repeat split; reflexivity. Qed.
Example hex_0 : fmt.fmtInteger16 true (Some 16) 0 = "0000000000000000".
Proof. reflexivity. Qed.
Example hex_4096 : fmt.fmtInteger16 true (Some 16) 4096 = "0000000000001000".
Proof. reflexivity. Qed.
Example hex_max : fmt.fmtInteger16 true (Some 16) (2 ^ 64 - 1) = "ffffffffffffffff".
Proof. reflexivity. Qed.
Example hex_plain : fmt.fmtInteger16 false (Some 6) 48879 = "  beef".
Proof. reflexivity. Qed.
Example TrimSpace_ex1 f : bytes.TrimSpace f (String "009" " 1 " +:+ String "010" "") = "1".
Proof. reflexivity. Qed.
Example TrimSpace_ex2 f : bytes.TrimSpace f "  a b  " = "a b".
Proof. reflexivity. Qed.
Example TrimSpace_ex3 f : bytes.TrimSpace f "   " = "".
Proof. reflexivity. Qed.
Example TrimSpace_ex4 f : bytes.TrimSpace f (" a" +:+ String "200" "b ") = "a" +:+ String "200" "b".
Proof. reflexivity. Qed.
Example TrimSpace_ex5 f : bytes.TrimSpace f (" a" +:+ String "200" " ") = f ("a" +:+ String "200" "").
Proof. reflexivity. Qed.
Example run_ListInstances :
  fst (tracefs.ListInstances tracing_world)
  = ([ {| tracefs.isRoot := false; tracefs.path := "/sys/kernel/tracing/instances/bar";
          tracefs.name := "bar" |};
       {| tracefs.isRoot := false; tracefs.path := "/sys/kernel/tracing/instances/foo";
          tracefs.name := "foo" |} ], None).
Proof. vm_compute. reflexivity. Qed.
Example run_Rule :
  tracefs.Rule {| tracefs.ReturnProbe := true; tracefs.Group := ""; tracefs.Event := "";
                  tracefs.Path := "/bin/true"; tracefs.Offset := 256; tracefs.FetchArgs := [] |}
  = "r /bin/true:0x0000000000000100".
Proof. reflexivity. Qed.
Example parse_ex1 :
  grammar.parse "r:grp/ev /bin/true:0x0000000000000100 %ax %bx"
  = Some {| grammar.type := "r"; 
            grammar.name := Some {| grammar.group := Some "grp"; grammar.event := "ev" |};
            grammar.binary := "/bin/true"; grammar.offset := "0000000000000100";
            grammar.fetch_args := Some "%ax %bx" |}.
Proof. reflexivity. Qed.
Example parse_ex2 : grammar.parse "p /bin/true:0x000000000000010G" = None.
Proof. reflexivity. Qed.
Example parse_ex3 : grammar.hex_value 0 "0000000000001000" = 4096%N.
Proof. reflexivity. Qed.

(** * Byte strings: append, length, substring *)

#[local] Arguments String.append !s1 s2 / : simpl nomatch.

Lemma string_app_nil_r (s : string) : s +:+ "" = s.
Proof. induction s as [|c s IH]; simpl; [reflexivity | now rewrite IH]. Qed.

Lemma string_app_assoc (a b c : string) : (a +:+ b) +:+ c = a +:+ (b +:+ c).
Proof. induction a as [|x a IH]; simpl; [reflexivity | now rewrite IH]. Qed.

Lemma string_length_app (a b : string) :
  String.length (a +:+ b) = String.length a + String.length b.
Proof. induction a as [|x a IH]; simpl; [reflexivity | now rewrite IH]. Qed.

Lemma is_empty_false (s : string) : is_empty s = false <-> s <> "".
Proof. destruct s; simpl; split; intros; congruence. Qed.

Lemma string_eqb_true (a b : string) : string_eqb a b = true <-> a = b.
Proof. apply String.eqb_eq. Qed.

Lemma string_eqb_false (a b : string) : string_eqb a b = false <-> a <> b.
Proof. apply String.eqb_neq. Qed.

Lemma substring_0_app (a b : string) : substring 0 (String.length a) (a +:+ b) = a.
Proof. induction a as [|x a IH]; simpl; [now destruct b | now rewrite IH]. Qed.

Lemma substring_skip_app (a b : string) (m : nat) :
  substring (String.length a) m (a +:+ b) = substring 0 m b.
Proof. induction a as [|x a IH]; simpl; [reflexivity | exact IH]. Qed.

Lemma substring_0_length (s : string) : substring 0 (String.length s) s = s.
Proof. induction s as [|x s IH]; simpl; [reflexivity | now rewrite IH]. Qed.

(** * [filepath.Join] on clean paths and regular names *)
Section JoinRegular.
Import filepath.

Lemma slashed_app (l k : list string) : slashed (l ++ k) = slashed l +:+ slashed k.
Proof.
  induction l as [|n l IH]; simpl; [reflexivity|].
  now rewrite IH, string_app_assoc.
Qed.

Lemma strings_Join_cons (e : string) (es : list string) :
  strings_Join (e :: es) "/" = e +:+ slashed es.
Proof.
  revert e. induction es as [|n es IH]; intros e.
  - simpl. now rewrite string_app_nil_r.
  - change (strings_Join (e :: n :: es) "/") with (e +:+ "/" +:+ strings_Join (n :: es) "/").
    now rewrite IH.
Qed.

Lemma strings_Join_snoc (l k : list string) :
  l <> [] -> strings_Join (l ++ k) "/" = strings_Join l "/" +:+ slashed k.
Proof.
  destruct l as [|e l]; [congruence | intros _].
  change ((e :: l) ++ k) with (e :: (l ++ k)).
  now rewrite !strings_Join_cons, slashed_app, string_app_assoc.
Qed.

Lemma elements_not_nil (s : string) : elements s <> [].
Proof.
  destruct s as [|c s]; simpl; [congruence|].
  destruct (IsPathSeparator c); [congruence|].
  destruct (elements s); congruence.
Qed.

(** Cutting at a separator splits the list of elements. *)
Lemma elements_app_sep (a b : string) :
  elements (a +:+ String Separator b) = elements a ++ elements b.
Proof.
  induction a as [|c a IH]; simpl; [reflexivity|].
  destruct (IsPathSeparator c); rewrite IH; [reflexivity|].
  pose proof (elements_not_nil a) as Hne.
  destruct (elements a); [congruence | reflexivity].
Qed.

Lemma elements_slashed (ns : list string) (a : string) :
  elements (a +:+ slashed ns) = elements a ++ flat_map elements ns.
Proof.
  revert a. induction ns as [|n ns IH]; intros a; simpl.
  - now rewrite string_app_nil_r, List.app_nil_r.
  - change ("/" +:+ n +:+ slashed ns) with (String Separator (n +:+ slashed ns)).
    now rewrite elements_app_sep, IH.
Qed.

(** Putting a separator in front of each element of a name gives the
    name after a separator. *)
Lemma slashed_elements (s : string) : slashed (elements s) = String Separator s.
Proof.
  induction s as [|c s IH]; [reflexivity|].
  simpl elements. destruct (IsPathSeparator c) eqn:Hc.
  - apply Ascii.eqb_eq in Hc. subst c. simpl. now rewrite IH.
  - destruct (elements s) as [|e es]; [now destruct (elements_not_nil s)|].
    simpl in IH |- *. injection IH as IH. now rewrite IH.
Qed.

Lemma slashed_flat_elements (ns : list string) :
  slashed (flat_map elements ns) = slashed ns.
Proof.
  induction ns as [|n ns IH]; [reflexivity|].
  simpl. rewrite slashed_app, slashed_elements, IH. reflexivity.
Qed.

Lemma rooted_app (a b : string) : a <> "" -> rooted (a +:+ b) = rooted a.
Proof. destruct a; [congruence | reflexivity]. Qed.

Lemma clean_step_regular (r : bool) (b : lazybuf) (e : string) :
  regular_element e = true ->
  clean_step r b e = {| out := e :: out b; dotdot := dotdot b |}.
Proof.
  unfold regular_element, clean_step. intros H.
  apply andb_prop in H as [H H3]. apply andb_prop in H as [H1 H2].
  apply negb_true_iff in H1, H2, H3. now rewrite H1, H2, H3.
Qed.

Lemma clean_steps_regular (r : bool) (es : list string) (b : lazybuf) :
  forallb regular_element es = true ->
  fold_left (clean_step r) es b = {| out := rev es ++ out b; dotdot := dotdot b |}.
Proof.
  revert b. induction es as [|e es IH]; intros b H.
  - now destruct b.
  - simpl in H. apply andb_prop in H as [He Hes].
    simpl fold_left. rewrite clean_step_regular, IH by assumption.
    simpl. now rewrite <- List.app_assoc.
Qed.

Lemma render_more (r : bool) (w es : list string) :
  w <> [] -> render r (rev es ++ w) = render r w +:+ slashed es.
Proof.
  intros Hw. unfold render.
  assert (Hrev : rev w <> []).
  { intros E. apply (f_equal (@rev string)) in E. rewrite rev_involutive in E. auto. }
  rewrite rev_app_distr, rev_involutive, strings_Join_snoc by assumption.
  destruct r; [reflexivity|].
  destruct w as [|x w]; [congruence|].
  destruct (rev es ++ x :: w) eqn:E; [|reflexivity].
  now destruct (rev es).
Qed.

Lemma forallb_flat_elements (ns : list string) :
  forallb regular_name ns = true ->
  forallb regular_element (flat_map elements ns) = true.
Proof.
  induction ns as [|n ns IH]; [reflexivity|].
  simpl. intros H. apply andb_prop in H as [Hn Hns].
  rewrite forallb_app. apply andb_true_intro. split; [exact Hn | auto].
Qed.

Lemma Join_nonempty (e : string) (rest : list string) :
  e <> "" -> Join (e :: rest) = Clean (strings_Join (e :: rest) "/").
Proof. destruct e; [congruence | reflexivity]. Qed.

Lemma Clean_nonempty (p : string) :
  p <> "" -> Clean p = render (rooted p) (out (clean_loop (rooted p) (elements p))).
Proof. destruct p; [congruence | reflexivity]. Qed.

(** On a clean base, regular names are appended as they are. *)
Lemma Join_regular (p : string) (ns : list string) :
  clean_base p = true ->
  forallb regular_name ns = true ->
  Join (p :: ns) = p +:+ slashed ns.
Proof.
  unfold clean_base. intros Hp Hns.
  apply andb_prop in Hp as [Hp Hdot]. apply andb_prop in Hp as [Hclean Hroot].
  apply string_eqb_true in Hclean.
  apply negb_true_iff, string_eqb_false in Hroot, Hdot.
  assert (Hne : p <> "") by (intros ->; apply Hdot; now rewrite <- Hclean).
  rewrite Join_nonempty, strings_Join_cons by assumption.
  rewrite Clean_nonempty in Hclean by assumption.
  rewrite Clean_nonempty by (destruct p; [congruence | discriminate]).
  rewrite rooted_app, elements_slashed by assumption.
  unfold clean_loop in *. rewrite fold_left_app.
  set (b := fold_left (clean_step (rooted p)) (elements p) _) in *.
  rewrite clean_steps_regular by now apply forallb_flat_elements.
  simpl out.
  assert (Hout : out b <> []).
  { intros E. rewrite E in Hclean. unfold render in Hclean.
    destruct (rooted p); cbv in Hclean; congruence. }
  rewrite render_more, Hclean, slashed_flat_elements by assumption.
  reflexivity.
Qed.

End JoinRegular.

(** * The verb [%016x] on a [uint64] *)
Section Hex.
Import fmt grammar.

Lemma digit_value (d : N) : (d < 16)%N -> lower_hex_value (digit d) = Some d.
Proof.
  intros H. destruct d as [|p]; [reflexivity|].
  do 4 (destruct p as [p|p|]; try reflexivity); lia.
Qed.

Lemma all_bytes_app (f : ascii -> bool) (a b : string) :
  all_bytes f (a +:+ b) = all_bytes f a && all_bytes f b.
Proof.
  induction a as [|c a IH]; simpl; [reflexivity|].
  now rewrite IH, andb_assoc.
Qed.

Lemma hex_value_app (a b : string) (acc : N) :
  hex_value acc (a +:+ b) = hex_value (hex_value acc a) b.
Proof. revert acc. induction a as [|c a IH]; intros acc; simpl; [reflexivity | apply IH]. Qed.

Lemma hex_loop_S (turns : nat) (u : N) (buf : string) :
  hex_loop (S turns) u buf =
  if (16 <=? u)%N
  then hex_loop turns (N.shiftr u 4) (String (digit (N.land u 15)) buf)
  else String (digit u) buf.
Proof. reflexivity. Qed.

(** The digit loop writes between one and [turns] digits in front of
    the buffer, and they denote [u]. *)
Lemma hex_loop_digits (turns : nat) (u : N) (buf : string) :
  (u < 16 ^ N.of_nat (S turns))%N ->
  exists ds,
    hex_loop (S turns) u buf = ds +:+ buf /\
    1 <= String.length ds <= S turns /\
    all_bytes lower_hex_digit ds = true /\
    forall acc, hex_value acc ds = (acc * 16 ^ N.of_nat (String.length ds) + u)%N.
Proof.
  revert u buf. induction turns as [|turns IH]; intros u buf Hu.
  - exists (String (digit u) "").
    change (16 ^ N.of_nat 1)%N with 16%N in Hu.
    assert (H16 : (16 <=? u)%N = false) by (apply N.leb_gt; lia).
    simpl. rewrite H16. unfold lower_hex_digit. rewrite digit_value by lia.
    split; [reflexivity|]. split; [lia|]. split; [reflexivity|].
    intros acc. cbn [default from_option id]. change (N.of_nat 1) with 1%N. rewrite N.pow_1_r. lia.
  - rewrite hex_loop_S. destruct (16 <=? u)%N eqn:H16.
    + apply N.leb_le in H16.
      assert (Hlow : (N.land u 15 = u mod 16)%N) by (apply (N.land_ones u 4)).
      assert (Hhigh : (N.shiftr u 4 = u / 16)%N) by (apply (N.shiftr_div_pow2 u 4)).
      assert (Hmod : (u mod 16 < 16)%N) by (apply N.mod_lt; lia).
      assert (Hdiv : (u = 16 * (u / 16) + u mod 16)%N) by (apply N.div_mod; lia).
      assert (Hd : lower_hex_value (digit (N.land u 15)) = Some (u mod 16)%N)
        by (rewrite Hlow; now apply digit_value).
      set (d := digit (N.land u 15)) in *.
      destruct (IH (N.shiftr u 4) (String d buf)) as (ds & Heq & Hlen & Hall & Hval).
      { rewrite Hhigh. apply N.Div0.div_lt_upper_bound.
        replace (N.of_nat (S (S turns))) with (N.succ (N.of_nat (S turns))) in Hu by lia.
        now rewrite N.pow_succ_r' in Hu. }
      exists (ds +:+ String d "").
      rewrite Heq, string_app_assoc. split; [reflexivity|].
      rewrite string_length_app, all_bytes_app, Hall.
      cbn [String.length all_bytes andb]. unfold lower_hex_digit. rewrite Hd.
      split; [lia|]. split; [reflexivity|].
      intros acc. rewrite hex_value_app, Hval. cbn [hex_value]. rewrite Hd.
      cbn [default from_option id].
      replace (N.of_nat (String.length ds + 1)) with (N.succ (N.of_nat (String.length ds))) by lia.
      rewrite N.pow_succ_r', Hhigh. lia.
    + apply N.leb_gt in H16. exists (String (digit u) "").
      simpl. unfold lower_hex_digit. rewrite digit_value by lia.
      split; [reflexivity|]. split; [lia|]. split; [reflexivity|].
      intros acc. cbn [default from_option id]. change (N.of_nat 1) with 1%N. rewrite N.pow_1_r. lia.
Qed.

Lemma pad_left_length (c : ascii) (n : nat) (s : string) :
  String.length (pad_left c n s) = n + String.length s.
Proof. induction n as [|n IH]; simpl; [reflexivity | now rewrite IH]. Qed.

Lemma pad_zero_digits (n : nat) (s : string) :
  all_bytes lower_hex_digit (pad_left "0" n s) = all_bytes lower_hex_digit s /\
  hex_value 0 (pad_left "0" n s) = hex_value 0 s.
Proof. induction n as [|n [IH1 IH2]]; simpl; [split; reflexivity | now split]. Qed.

(** [%016x] gives a [uint64] as exactly 16 lowercase hexadecimal digits
    that denote it. *)
Lemma hex16_digits (u : N) :
  uint64_range u ->
  let hex := fmtInteger16 true (Some 16) u in
  String.length hex = 16 /\
  all_bytes lower_hex_digit hex = true /\
  hex_value 0 hex = u.
Proof.
  unfold uint64_range. intros Hu.
  destruct (hex_loop_digits 15 u "") as (ds & Heq & Hlen & Hall & Hval).
  { change (16 ^ N.of_nat 16)%N with (2 ^ 64)%N. exact Hu. }
  rewrite string_app_nil_r in Heq. unfold fmtInteger16. rewrite Heq. cbn [default from_option id].
  set (zeroed := pad_left "0" (16 - String.length ds) ds).
  assert (Hz : String.length zeroed = 16).
  { unfold zeroed. rewrite pad_left_length. lia. }
  rewrite Hz. cbn [Nat.sub pad_left]. split; [exact Hz|].
  destruct (pad_zero_digits (16 - String.length ds) ds) as [H1 H2].
  unfold zeroed. rewrite H1, H2, Hval. split; [exact Hall | lia].
Qed.

End Hex.

(** * The rule line *)
Section RuleLine.
Import tracefs grammar.

(** The loop over the fetch arguments appends their text. *)
Lemma fetch_loop (args : list FetchArg) (builder : string) :
  fold_left (fun b arg => fmt.Fprintf b [fmt.text " "; fmt.verb_s (FetchArg_String arg)])
            args builder
  = builder +:+ fetch_text args.
Proof.
  revert builder. induction args as [|a args IH]; intros builder.
  - simpl. now rewrite string_app_nil_r.
  - cbn [fold_left]. rewrite IH. unfold fmt.Fprintf.
    cbn [fmt.Sprintf fmt.format fetch_text].
    now rewrite string_app_nil_r, !string_app_assoc.
Qed.

(** [Rule] as one concatenation. *)
Lemma Rule_text (e : UprobeEvent) :
  Rule e = type_text e +:+ naming_clause e +:+ " " +:+ Path e +:+ ":0x"
           +:+ fmt.fmtInteger16 true (Some 16) (Offset e) +:+ fetch_text (FetchArgs e).
Proof.
  unfold Rule. rewrite fetch_loop. unfold naming_clause, type_text.
  destruct (is_empty (Event e)), (is_empty (Group e)); cbn [negb andb];
    unfold fmt.Fprintf; cbn [fmt.Sprintf fmt.format];
    rewrite ?string_app_nil_r, ?string_app_assoc; reflexivity.
Qed.

Lemma Rule_words (e : UprobeEvent) :
  Rule e = type_text e +:+ naming_clause e +:+ " " +:+ location_text e
           +:+ fetch_text (FetchArgs e).
Proof. rewrite Rule_text. unfold location_text. now rewrite !string_app_assoc. Qed.

Lemma contains_byte_app (c : ascii) (a b : string) :
  contains_byte c (a +:+ b) = contains_byte c a || contains_byte c b.
Proof.
  induction a as [|x a IH]; simpl; [reflexivity|].
  now rewrite IH, orb_assoc.
Qed.

Lemma cut_at (c : ascii) (a b : string) :
  contains_byte c a = false -> cut c (a +:+ String c b) = (a, Some b).
Proof.
  induction a as [|x a IH]; simpl; intros H.
  - unfold byte_eqb. now rewrite Ascii.eqb_refl.
  - apply orb_false_elim in H as [Hx Ha]. now rewrite Hx, IH.
Qed.

Lemma cut_absent (c : ascii) (a : string) :
  contains_byte c a = false -> cut c a = (a, None).
Proof.
  induction a as [|x a IH]; simpl; intros H; [reflexivity|].
  apply orb_false_elim in H as [Hx Ha]. now rewrite Hx, IH.
Qed.

Lemma hex_digits_no_space (s : string) :
  all_bytes lower_hex_digit s = true -> contains_byte " " s = false.
Proof.
  induction s as [|c s IH]; intros H; [reflexivity|].
  cbn [all_bytes contains_byte] in *.
  apply andb_prop in H as [Hc Hs]. rewrite IH by assumption.
  rewrite orb_false_r. unfold byte_eqb.
  destruct (Ascii.eqb_spec " " c) as [<-|]; [discriminate Hc | reflexivity].
Qed.

Lemma parse_naming_clause (e : UprobeEvent) :
  contains_byte "/" (Group e) = false ->
  contains_byte "/" (Event e) = false ->
  parse_naming (naming_clause e) = Some (naming_of e).
Proof.
  intros Hg He. unfold naming_clause, naming_of.
  destruct (is_empty (Event e)) eqn:Eev; [reflexivity|].
  destruct (is_empty (Group e)) eqn:Egr.
  - cbn [String.append parse_naming]. change (byte_eqb ":" ":") with true. cbv iota.
    now rewrite cut_absent, Eev by assumption.
  - cbn [String.append parse_naming]. change (byte_eqb ":" ":") with true. cbv iota.
    change (Group e +:+ String "/" (Event e)) with (Group e +:+ String "/" (Event e)).
    now rewrite cut_at, Egr, Eev, He by assumption.
Qed.

Lemma parse_location_text (pth hex : string) :
  String.length hex = 16 ->
  all_bytes lower_hex_digit hex = true ->
  parse_location (pth +:+ ":0x" +:+ hex) = Some (pth, hex).
Proof.
  intros Hlen Hall.
  assert (E1 : substring (String.length pth + 3) 16 (pth +:+ ":0x" +:+ hex) = hex).
  { rewrite <- string_app_assoc.
    change (String.length pth + 3) with (String.length pth + String.length ":0x").
    now rewrite <- string_length_app, substring_skip_app, <- Hlen, substring_0_length. }
  assert (E2 : substring (String.length pth) 3 (pth +:+ ":0x" +:+ hex) = ":0x").
  { rewrite substring_skip_app. apply (substring_0_app ":0x" hex). }
  assert (E3 : substring 0 (String.length pth) (pth +:+ ":0x" +:+ hex) = pth).
  { apply substring_0_app. }
  unfold parse_location.
  rewrite !string_length_app, Hlen. cbn [String.length].
  assert (Hlt : (String.length pth + (3 + 16) <? 19) = false) by (apply Nat.ltb_ge; lia).
  rewrite Hlt.
  replace (String.length pth + (3 + 16) - 19) with (String.length pth) by lia.
  replace (String.length pth + (3 + 16) - 16) with (String.length pth + 3) by lia.
  now rewrite E1, E2, E3, Hall.
Qed.

End RuleLine.

(** * Claims on the rule line *)
Section RuleClaims.
Import tracefs grammar.



(** C2.  The naming clause of [Rule] is there only when [Event] is not
    empty: [:<Group>/<Event>] when both are given, [:<Event>] when only
    [Event] is, and nothing at all when [Event] is empty, whatever
    [Group] is. *)
Theorem Rule_naming (e : UprobeEvent) :
  let type := if ReturnProbe e then "r" else "p" in
  let rest := " " +:+ Path e +:+ ":0x" +:+ fmt.fmtInteger16 true (Some 16) (Offset e)
              +:+ fetch_text (FetchArgs e) in
  (Group e <> "" -> Event e <> "" ->
   Rule e = type +:+ ":" +:+ Group e +:+ "/" +:+ Event e +:+ rest) /\
  (Group e = "" -> Event e <> "" ->
   Rule e = type +:+ ":" +:+ Event e +:+ rest) /\
  (Event e = "" -> Rule e = type +:+ rest).
Proof.
  intros type rest. rewrite Rule_text.
  unfold naming_clause, type_text, type, rest.
  repeat split.
  - intros Hg He. apply is_empty_false in Hg, He. rewrite Hg, He.
    rewrite ?string_app_assoc. reflexivity.
  - intros Hg He. apply is_empty_false in He. rewrite Hg, He.
    rewrite ?string_app_assoc. reflexivity.
  - intros He. rewrite He. reflexivity.
Qed.

Lemma Rule_naming_witness :
  Rule sample_event = "r:grp/ev /bin/true:0x0000000000000100 %ax %bx".
Proof.
  refine (proj1 (Rule_naming sample_event) _ _); discriminate.
Defined.

Lemma naming_clause_no_space (e : UprobeEvent) :
  contains_byte " " (Group e) = false ->
  contains_byte " " (Event e) = false ->
  contains_byte " " (naming_clause e) = false.
Proof.
  intros Hg He. unfold naming_clause.
  destruct (is_empty (Event e)); [reflexivity|].
  destruct (is_empty (Group e)); rewrite ?contains_byte_app, ?Hg, ?He; reflexivity.
Qed.

Lemma cut_before_fetch_text (word : string) (args : list FetchArg) :
  contains_byte " " word = false ->
  exists rest, cut " " (word +:+ fetch_text args) = (word, rest).
Proof.
  intros Hw. destruct args as [|a args]; cbn [fetch_text].
  - rewrite string_app_nil_r. eexists. now apply cut_absent.
  - eexists. now apply cut_at.
Qed.

(** C4.  For every valid event, reading the line [Rule] gives against
    the rule grammar recovers the type character, the naming clause,
    the path and the 16 digits of the offset. *)
Theorem Rule_round_trip (e : UprobeEvent) :
  valid_event e ->
  exists r,
    parse (Rule e) = Some r /\
    type r = (if ReturnProbe e then "r" else "p")%char /\
    name r = naming_of e /\
    binary r = Path e /\
    offset r = fmt.fmtInteger16 true (Some 16) (Offset e) /\
    String.length (offset r) = 16 /\
    hex_value 0 (offset r) = Offset e.
Proof.
  intros (Hg1 & Hg2 & He1 & He2 & Hp & Hu).
  destruct (hex16_digits (Offset e) Hu) as (Hlen & Hall & Hval).
  set (hex := fmt.fmtInteger16 true (Some 16) (Offset e)) in *.
  assert (Hloc : contains_byte " " (location_text e) = false).
  { unfold location_text. fold hex.
    now rewrite !contains_byte_app, Hp, (hex_digits_no_space hex Hall). }
  destruct (cut_before_fetch_text (location_text e) (FetchArgs e) Hloc) as [args Hargs].
  rewrite Rule_words.
  assert (Hparse :
    parse (type_text e +:+ naming_clause e +:+ " " +:+ location_text e
           +:+ fetch_text (FetchArgs e))
    = Some {| type := if ReturnProbe e then "r" else "p"; name := naming_of e;
              binary := Path e; offset := hex; fetch_args := args |}).
  { unfold type_text.
    destruct (ReturnProbe e); cbn [String.append parse];
      (rewrite (cut_at " " (naming_clause e)) by now apply naming_clause_no_space);
      cbn [parse_type byte_eqb]; cbn; rewrite Hargs;
      rewrite parse_naming_clause by assumption;
      unfold location_text; fold hex;
      rewrite parse_location_text by assumption; reflexivity. }
  eexists. split; [exact Hparse|]. cbn. repeat split; assumption.
Qed.

Lemma Rule_round_trip_witness :
  valid_event sample_event /\
  exists r,
    parse (Rule sample_event) = Some r /\
    type r = "r"%char /\
    name r = Some {| group := Some "grp"; event := "ev" |} /\
    binary r = "/bin/true" /\
    offset r = "0000000000000100" /\
    String.length (offset r) = 16 /\
    hex_value 0 (offset r) = 256%N.
Proof.
  assert (H : valid_event sample_event) by (repeat split; reflexivity).
  split; [exact H|].
  exact (Rule_round_trip sample_event H).
Defined.

End RuleClaims.

(** * Trimming *)
Section Trim.
Import bytes.

Variable trim : string -> string.

Lemma asciiSpace_below (c : ascii) :
  asciiSpace c = true -> (RuneSelf <=? N_of_ascii c)%N = false.
Proof.
  unfold asciiSpace, RuneSelf. intros H. apply N.leb_gt.
  destruct (N_of_ascii c) as [|p]; [lia|].
  do 6 (destruct p as [p|p|]; try discriminate H; try lia).
Qed.

Lemma ascii_nonspace_inv (c : ascii) :
  ascii_nonspace c = true ->
  (RuneSelf <=? N_of_ascii c)%N = false /\ asciiSpace c = false.
Proof.
  unfold ascii_nonspace. intros H. apply andb_prop in H as [H1 H2].
  apply N.ltb_lt in H1. apply negb_true_iff in H2.
  split; [apply N.leb_gt; exact H1 | exact H2].
Qed.

Lemma scan_start_spaces (ws s : string) :
  grammar.all_bytes asciiSpace ws = true -> scan_start (ws +:+ s) = scan_start s.
Proof.
  induction ws as [|c ws IH]; intros H; [reflexivity|].
  cbn [grammar.all_bytes] in H. apply andb_prop in H as [Hc Hws].
  cbn [String.append scan_start]. now rewrite asciiSpace_below, Hc, IH.
Qed.

Lemma scan_stop_spaces (ws : string) :
  grammar.all_bytes asciiSpace ws = true -> scan_stop ws = Stop "".
Proof.
  induction ws as [|c ws IH]; intros H; [reflexivity|].
  cbn [grammar.all_bytes] in H. apply andb_prop in H as [Hc Hws].
  cbn [scan_stop]. now rewrite IH, asciiSpace_below, Hc.
Qed.

Lemma scan_stop_body (body ws : string) (d : ascii) :
  last_byte body = Some d -> ascii_nonspace d = true ->
  grammar.all_bytes asciiSpace ws = true ->
  scan_stop (body +:+ ws) = Stop body.
Proof.
  intros Hlast Hd Hws. apply ascii_nonspace_inv in Hd as [Hd1 Hd2].
  induction body as [|c body IH]; [discriminate|].
  destruct body as [|c' body].
  - injection Hlast as ->. cbn [String.append scan_stop].
    now rewrite scan_stop_spaces, Hd1, Hd2.
  - change (String c (String c' body) +:+ ws) with (String c (String c' body +:+ ws)).
    cbn [scan_stop]. rewrite IH by exact Hlast. reflexivity.
Qed.

(** [TrimSpace] takes ASCII spaces off both ends of a tight body. *)
Lemma TrimSpace_around (ws1 body ws2 : string) :
  grammar.all_bytes asciiSpace ws1 = true ->
  grammar.all_bytes asciiSpace ws2 = true ->
  tight body = true ->
  TrimSpace trim (ws1 +:+ body +:+ ws2) = body.
Proof.
  intros H1 H2 Hb. unfold TrimSpace. rewrite scan_start_spaces by assumption.
  destruct body as [|c body].
  - cbn [String.append]. 
    assert (E : scan_start ws2 = Stop "").
    { rewrite <- (string_app_nil_r ws2). now rewrite scan_start_spaces. }
    now rewrite E.
  - unfold tight in Hb. destruct (last_byte (String c body)) as [d|] eqn:Hlast.
    + apply andb_prop in Hb as [Hc Hd].
      destruct (ascii_nonspace_inv c Hc) as [Hc1 Hc2].
      cbn [String.append scan_start]. rewrite Hc1, Hc2.
      change (String c (body +:+ ws2)) with (String c body +:+ ws2).
      now rewrite (scan_stop_body _ _ d).
    + exfalso. clear -Hlast. revert c Hlast.
      induction body as [|c' body IH]; intros c H; [discriminate|].
      exact (IH c' H).
Qed.

End Trim.

(** * Calls to the operating system leave a trace *)
Section Logged.
Import os.

(** Every call of the model is entered into the log, so a computation
    that gives back the world it was given has made none. *)
Lemma calls_logged (w : World) :
  (forall n, calls (snd (sys.ReadFile n w)) = calls w ++ [call_ReadFile n]) /\
  (forall n d p, calls (snd (sys.WriteFile n d p w)) = calls w ++ [call_WriteFile n d p]) /\
  (forall n, calls (snd (sys.ReadDir n w)) = calls w ++ [call_ReadDir n]) /\
  (forall n p, calls (snd (sys.Mkdir n p w)) = calls w ++ [call_Mkdir n p]) /\
  (forall n, calls (snd (sys.Remove n w)) = calls w ++ [call_Remove n]) /\
  (forall n f p, calls (snd (sys.OpenFile n f p w)) = calls w ++ [call_OpenFile n f p]) /\
  (forall fd d, calls (snd (sys.Write fd d w)) = calls w ++ [call_Write fd d]) /\
  (forall fd, calls (snd (sys.Close fd w)) = calls w ++ [call_Close fd]).
Proof.
  repeat split; intros.
  - unfold sys.ReadFile, bind, log, get_nodes, ret. cbn.
    destruct (nodes w !! filepath.Clean n) as [[]|]; reflexivity.
  - unfold sys.WriteFile, bind, log, get_nodes, put_nodes, ret. cbn.
    destruct (nodes w !! filepath.Clean n) as [[]|]; try reflexivity.
    destruct (sys.parent_error _ _ _); reflexivity.
  - unfold sys.ReadDir, bind, log, get_nodes, ret. cbn.
    destruct (nodes w !! filepath.Clean n) as [[]|]; reflexivity.
  - unfold sys.Mkdir, bind, log, get_nodes, put_nodes, ret. cbn.
    destruct (nodes w !! filepath.Clean n); try reflexivity.
    destruct (sys.parent_error _ _ _); reflexivity.
  - unfold sys.Remove, bind, log, get_nodes, put_nodes, ret. cbn.
    destruct (nodes w !! filepath.Clean n) as [[]|]; try reflexivity.
    destruct (sys.entries _ _); reflexivity.
  - unfold sys.OpenFile, sys.open_description, bind, log, get_nodes, put_nodes,
      fresh_fd, put_open, ret. cbn.
    destruct (nodes w !! filepath.Clean n) as [[]|]; cbn.
    + destruct (has_flag f O_CREATE && has_flag f O_EXCL); [reflexivity|].
      destruct (has_flag f O_TRUNC && writable f); reflexivity.
    + destruct (writable f || has_flag f O_CREATE); reflexivity.
    + destruct (has_flag f O_CREATE); [|reflexivity].
      destruct (sys.parent_error _ _ _); reflexivity.
  - unfold sys.Write, bind, log, get_open, get_nodes, put_nodes, put_open, ret. cbn.
    destruct (open_files w !! fd) as [desc|]; [|reflexivity].
    destruct (negb (writable (d_flag desc))); [reflexivity|]. cbn.
    destruct (nodes w !! d_name desc) as [[]|]; reflexivity.
  - unfold sys.Close, bind, log, get_open, put_open, ret. cbn.
    destruct (open_files w !! fd); reflexivity.
Qed.

End Logged.

(** * Reading control nodes *)
Section Reading.
Import os tracefs.

Variable trim : string -> string.

Lemma readFile_result (i : Instance) (n data : string) (err : option error) (w w' : World) :
  sys.ReadFile (filepath.Join [path i; n]) w = ((data, err), w') ->
  readFile trim i n w =
  match err with
  | Some _ => (("", err), w')
  | None => ((bytes.TrimSpace trim data, None), w')
  end.
Proof.
  intros H. unfold readFile, bind. rewrite H. now destruct err.
Qed.

Lemma On_result (i : Instance) (data : string) (err : option error) (w w' : World) :
  sys.ReadFile (filepath.Join [path i; "tracing_on"]) w = ((data, err), w') ->
  On trim i w =
  match err with
  | Some _ => ((false, err), w')
  | None =>
      let result := bytes.TrimSpace trim data in
      if string_eqb result "0" then ((false, None), w')
      else if string_eqb result "1" then ((true, None), w')
      else ((false, Some (errorString ("unknown on value: " +:+ result))), w')
  end.
Proof.
  intros H. unfold On, bind. fold tracingOnPath in H.
  rewrite (readFile_result _ _ _ _ _ _ H).
  destruct err; [reflexivity|]. cbn zeta.
  destruct (string_eqb _ "0"); [reflexivity|].
  destruct (string_eqb _ "1"); [reflexivity|].
  unfold ret, Errorf. cbn [fmt.Sprintf fmt.format].
  now rewrite string_app_nil_r.
Qed.


(** C5, amended.  [On] gives [true] when the content of [tracing_on] is
    ["1"], [false] when it is ["0"], and fails with an error
    ["unknown on value: ..."] for any content that, once the
    surrounding whitespace is trimmed, is neither; when the node cannot
    be read, the error of the read is returned. *)
Theorem On_values (i : Instance) (data : string) (err : option error) (w w' : World) :
  sys.ReadFile (filepath.Join [path i; "tracing_on"]) w = ((data, err), w') ->
  (forall e, err = Some e -> On trim i w = ((false, Some e), w')) /\
  (err = None -> data = "1" -> On trim i w = ((true, None), w')) /\
  (err = None -> data = "0" -> On trim i w = ((false, None), w')) /\
  (err = None ->
   let content := bytes.TrimSpace trim data in
   (content = "1" -> On trim i w = ((true, None), w')) /\
   (content = "0" -> On trim i w = ((false, None), w')) /\
   (content <> "0" -> content <> "1" ->
    On trim i w = ((false, Some (errorString ("unknown on value: " +:+ content))), w'))).
Proof.
  intros H. rewrite (On_result _ _ _ _ _ H).
  split; [now intros e ->|].
  split; [now intros -> ->|].
  split; [now intros -> ->|].
  intros ->. cbn zeta. set (content := bytes.TrimSpace trim data).
  split; [now intros ->|]. split; [now intros ->|].
  intros H0 H1. apply string_eqb_false in H0, H1. now rewrite H0, H1.
Qed.


End Reading.

Section ReadingChecks.
Import os tracefs.

Lemma On_values_witness :
  sys.ReadFile (filepath.Join [path DefaultInstance; "tracing_on"]) tracing_world
    = (("1" +:+ newline, None), snd tracing_on_read) /\
  On (fun s => s) DefaultInstance tracing_world = ((true, None), snd tracing_on_read).
Proof.
  assert (H : sys.ReadFile (filepath.Join [path DefaultInstance; "tracing_on"]) tracing_world
              = (("1" +:+ newline, None), snd tracing_on_read))
    by (vm_compute; reflexivity).
  split; [exact H|].
  refine (proj1 (proj2 (proj2 (proj2 (On_values (fun s => s) _ _ _ _ _ H))) eq_refl) _).
  reflexivity.
Defined.

(** The kernel answers a read of [tracing_on] with ["1\n"]: a content
    other than ["0"] and ["1"], for which [On] gives [true] and no
    error. *)
Lemma On_other_content_counterexample :
  fst tracing_on_read = ("1" +:+ newline, None) /\
  "1" +:+ newline <> "0" /\
  "1" +:+ newline <> "1" /\
  fst (On (fun s => s) DefaultInstance tracing_world) = (true, None).
Proof.
  split; [vm_compute; reflexivity|].
  split; [discriminate|]. split; [discriminate|].
  vm_compute. reflexivity.
Qed.


End ReadingChecks.

(** * Structural misuse *)
Section Misuse.
Import os tracefs.

Lemma ChildInstances_not_root (i : Instance) (w : World) :
  isRoot i = false -> ChildInstances i w = (([], not_root_ChildInstances), w).
Proof. unfold ChildInstances. now intros ->. Qed.

Lemma NewInstance_not_root (i : Instance) (n : string) (w : World) :
  isRoot i = false -> NewInstance i n w = ((None, not_root_NewInstance), w).
Proof. unfold NewInstance. now intros ->. Qed.

Lemma Destroy_not_root (i : Instance) (w : World) :
  isRoot i = false -> Destroy i w = sys.Remove (path i) w.
Proof. unfold Destroy. now intros ->. Qed.

Lemma structural_not_root (i : Instance) : isRoot i = false -> structural_checks i.
Proof.
  intros H w. split; [now apply ChildInstances_not_root|].
  split; [intros m; now apply NewInstance_not_root | now apply Destroy_not_root].
Qed.

(** C6.  Structural misuse is turned down before the filesystem is
    touched: on an instance that is not the root, [ChildInstances] and
    [NewInstance] fail with an error that says so, and on the root
    [Destroy] does; the world, the log of calls with it, is given back
    as it was. *)
Theorem misuse_rejected (i : Instance) (w : World) :
  (isRoot i = false ->
   ChildInstances i w = (([], not_root_ChildInstances), w) /\
   forall n, NewInstance i n w = ((None, not_root_NewInstance), w)) /\
  (isRoot i = true ->
   Destroy i w = (root_Destroy, w)).
Proof.
  split.
  - intros H. split; [now apply ChildInstances_not_root|].
    intros n. now apply NewInstance_not_root.
  - intros H. unfold Destroy. now rewrite H.
Qed.

Lemma misuse_rejected_witness :
  let child := {| isRoot := false; path := "/sys/kernel/tracing/instances/foo"; name := "foo" |} in
  (ChildInstances child tracing_world = (([], not_root_ChildInstances), tracing_world) /\
   NewInstance child "probe1" tracing_world = ((None, not_root_NewInstance), tracing_world)) /\
  Destroy DefaultInstance tracing_world = (root_Destroy, tracing_world) /\
  calls (snd (Destroy DefaultInstance tracing_world)) = [].
Proof.
  intros child.
  pose proof (proj1 (misuse_rejected child tracing_world) eq_refl) as [H1 H2].
  pose proof (proj2 (misuse_rejected DefaultInstance tracing_world) eq_refl) as H3.
  split; [split; [exact H1 | exact (H2 "probe1")]|].
  split; [exact H3|]. rewrite H3. reflexivity.
Defined.

End Misuse.

(** * Child instances *)
Section Children.
Import os tracefs.

Lemma elements_plain (n : string) :
  contains_byte filepath.Separator n = false -> filepath.elements n = [n].
Proof.
  induction n as [|c n IH]; [reflexivity|].
  cbn [contains_byte filepath.elements]. intros H.
  apply orb_false_elim in H as [Hc Hn].
  unfold filepath.IsPathSeparator, byte_eqb in *.
  rewrite Ascii.eqb_sym, Hc, IH by assumption. reflexivity.
Qed.

Lemma entry_name_regular (n : string) :
  sys.entry_name n = true -> regular_name n = true.
Proof.
  unfold sys.entry_name, regular_name. intros H.
  apply andb_prop in H as [H Hsep]. apply negb_true_iff in Hsep.
  rewrite elements_plain by assumption. cbn [forallb].
  unfold regular_element. now rewrite H.
Qed.

Lemma entries_names (dir : string) (ns : gmap string Node) :
  Forall (fun n => sys.entry_name n = true) (sys.entries dir ns).
Proof.
  apply Forall_forall. intros n Hn. unfold sys.entries in Hn.
  rewrite merge_sort_Permutation in Hn.
  apply list_elem_of_omap in Hn as ([k v] & _ & Hk).
  unfold sys.entry_of in Hk. cbn [fst] in Hk.
  destruct (sys.entry_name _) eqn:E; [|discriminate].
  cbn [andb] in Hk. destruct (string_eqb _ _); [|discriminate].
  now injection Hk as <-.
Qed.

Lemma ReadDir_names (d : string) (entries : list sys.DirEntry) (w w' : World) :
  sys.ReadDir d w = ((entries, None), w') ->
  Forall (fun e => regular_name (sys.Name e) = true) entries.
Proof.
  unfold sys.ReadDir, bind, log, get_nodes, ret. cbn.
  destruct (_ !! filepath.Clean d) as [[]|]; intros H; try discriminate.
  injection H as <- _. apply Forall_fmap.
  eapply Forall_impl; [apply entries_names|].
  intros n Hn. now apply entry_name_regular.
Qed.

Lemma clean_base_nonempty (p : string) : clean_base p = true -> p <> "".
Proof. intros H ->. discriminate H. Qed.

Lemma clean_base_extend (p n : string) :
  clean_base p = true -> regular_name n = true ->
  filepath.Join [p; n] = p +:+ "/" +:+ n /\
  clean_base (p +:+ "/" +:+ n) = true.
Proof.
  intros Hp Hn.
  assert (HJ : filepath.Join [p; n] = p +:+ "/" +:+ n).
  { rewrite Join_regular by (try assumption; cbn [forallb]; now rewrite Hn).
    cbn [slashed]. now rewrite string_app_nil_r. }
  split; [exact HJ|].
  pose proof (clean_base_nonempty p Hp) as Hne.
  rewrite Join_nonempty in HJ by assumption.
  change (strings_Join [p; n] "/") with (p +:+ "/" +:+ n) in HJ.
  assert (Hlen : 2 <= String.length (p +:+ "/" +:+ n)).
  { rewrite !string_length_app. destruct p; [congruence | simpl; lia]. }
  unfold clean_base, string_eqb. rewrite HJ, String.eqb_refl.
  apply andb_true_intro. split; [apply andb_true_intro; split; [reflexivity|]|];
    apply negb_true_iff, String.eqb_neq; intros E; rewrite E in Hlen; simpl in Hlen; lia.
Qed.

Lemma instances_path (i : Instance) :
  clean_base (path i) = true ->
  filepath.Join [path i; "instances"] = path i +:+ "/instances" /\
  clean_base (path i +:+ "/instances") = true.
Proof. intros H. now apply (clean_base_extend (path i) "instances"). Qed.

Lemma child_path (i : Instance) (n : string) :
  clean_base (path i) = true -> regular_name n = true ->
  filepath.Join [path i; "instances"; n] = path i +:+ "/instances/" +:+ n /\
  filepath.Join [filepath.Join [path i; "instances"]; n] = path i +:+ "/instances/" +:+ n.
Proof.
  intros Hp Hn. destruct (instances_path i Hp) as [HJ Hc]. split.
  - rewrite Join_regular by (try assumption; cbn [forallb]; now rewrite Hn).
    cbn [slashed]. now rewrite string_app_nil_r.
  - rewrite HJ. destruct (clean_base_extend _ n Hc Hn) as [-> _].
    now rewrite string_app_assoc.
Qed.

(** The loop that fills the slice gives one instance per entry, in the
    order of the entries. *)
Lemma fill_children_map (dir : string) (entries : list sys.DirEntry) (done : list Instance) :
  fill_children dir (length done) entries
    (done ++ replicate (length entries) zero_Instance)
  = done ++ map (fun e => {| isRoot := false; name := sys.Name e;
                             path := filepath.Join [dir; sys.Name e] |}) entries.
Proof.
  revert done. induction entries as [|e entries IH]; intros done; [reflexivity|].
  cbn [fill_children length replicate map].
  rewrite insert_app_r_alt by lia. rewrite Nat.sub_diag. cbn [insert list_insert].
  rewrite (cons_middle _ done), List.app_assoc.
  replace (S (length done)) with (length (done ++ [{| isRoot := false; name := sys.Name e;
                             path := filepath.Join [dir; sys.Name e] |}]))
    by (rewrite List.length_app; simpl; lia).
  rewrite IH, <- List.app_assoc. reflexivity.
Qed.

Lemma ChildInstances_result (i : Instance) (entries : list sys.DirEntry) (w w' : World) :
  isRoot i = true ->
  sys.ReadDir (filepath.Join [path i; "instances"]) w = ((entries, None), w') ->
  ChildInstances i w =
  ((map (fun e => {| isRoot := false; name := sys.Name e;
                     path := filepath.Join [filepath.Join [path i; "instances"]; sys.Name e] |})
        entries, None), w').
Proof.
  intros Hroot H. unfold ChildInstances. rewrite Hroot. cbn [negb]. cbv zeta.
  unfold bind. rewrite H.
  unfold ret. now rewrite (fill_children_map _ entries []).
Qed.

Lemma NewInstance_result (i : Instance) (n : string) (w w' : World) :
  isRoot i = true ->
  sys.Mkdir (filepath.Join [path i; "instances"; n]) 511 w = (None, w') ->
  NewInstance i n w =
  ((Some {| isRoot := false; path := filepath.Join [path i; "instances"; n]; name := n |},
    None), w').
Proof.
  intros Hroot H. unfold NewInstance. rewrite Hroot. cbn [negb]. cbv zeta.
  unfold bind. now rewrite H.
Qed.

End Children.

Section ChildClaims.
Import os tracefs.

(** C7, amended.  On a root instance whose path is clean, for every
    name made of regular elements, [NewInstance], when the directory is
    created, gives an instance that is not a root, has the name given
    and the path [<root path>/instances/<name>]. *)
Theorem NewInstance_child (i : Instance) (n : string) (w w' : World) :
  isRoot i = true ->
  clean_base (path i) = true ->
  regular_name n = true ->
  sys.Mkdir (path i +:+ "/instances/" +:+ n) 511 w = (None, w') ->
  NewInstance i n w =
  ((Some {| isRoot := false; path := path i +:+ "/instances/" +:+ n; name := n |}, None), w').
Proof.
  intros Hroot Hp Hn Hmk. destruct (child_path i n Hp Hn) as [HJ _].
  rewrite (NewInstance_result i n w w' Hroot); rewrite HJ; [reflexivity | exact Hmk].
Qed.

Lemma NewInstance_child_witness :
  isRoot DefaultInstance = true /\
  clean_base (path DefaultInstance) = true /\
  regular_name "probe1" = true /\
  sys.Mkdir (path DefaultInstance +:+ "/instances/" +:+ "probe1") 511 tracing_world
    = (None, snd probe1_made) /\
  NewInstance DefaultInstance "probe1" tracing_world =
  ((Some {| isRoot := false; path := "/sys/kernel/tracing/instances/probe1";
            name := "probe1" |}, None), snd probe1_made).
Proof.
  assert (H : sys.Mkdir (path DefaultInstance +:+ "/instances/" +:+ "probe1") 511
                tracing_world = (None, snd probe1_made)) by (vm_compute; reflexivity).
  split; [reflexivity|]. split; [reflexivity|]. split; [reflexivity|].
  split; [exact H|].
  exact (NewInstance_child DefaultInstance "probe1" tracing_world _
           eq_refl eq_refl eq_refl H).
Defined.

(** With the name ["probe1/"] the directory is created and the
    instance returned, but its path is not the root path, [/instances/]
    and the name put together: [Join] has cleaned it. *)
Lemma NewInstance_name_counterexample :
  isRoot DefaultInstance = true /\
  fst (NewInstance DefaultInstance "probe1/" tracing_world)
    = (Some {| isRoot := false; path := "/sys/kernel/tracing/instances/probe1";
               name := "probe1/" |}, None) /\
  "/sys/kernel/tracing/instances/probe1"
    <> path DefaultInstance +:+ "/instances/" +:+ "probe1/".
Proof.
  split; [reflexivity|]. split; [vm_compute; reflexivity | discriminate].
Qed.

(** C8, amended.  Every instance [ChildInstances] or [NewInstance]
    gives is not a root and is named after the directory entry or the
    name given; on it [ChildInstances] and [NewInstance] fail the
    structural check and [Destroy] passes it.  When the path of the
    root is clean and, for [NewInstance], the name is made of regular
    elements, its path is [<root path>/instances/<name>]. *)
Theorem produced_instances (i : Instance) (w w' : World) :
  isRoot i = true ->
  (forall out,
     ChildInstances i w = ((out, None), w') ->
     exists entries,
       sys.ReadDir (filepath.Join [path i; "instances"]) w = ((entries, None), w') /\
       map name out = map sys.Name entries /\
       Forall (fun c =>
                 isRoot c = false /\
                 structural_checks c /\
                 (clean_base (path i) = true ->
                  path c = path i +:+ "/instances/" +:+ name c)) out) /\
  (forall n c,
     NewInstance i n w = ((Some c, None), w') ->
     sys.Mkdir (filepath.Join [path i; "instances"; n]) 511 w = (None, w') /\
     isRoot c = false /\
     name c = n /\
     structural_checks c /\
     (clean_base (path i) = true -> regular_name n = true ->
      path c = path i +:+ "/instances/" +:+ n)).
Proof.
  intros Hroot. split.
  - intros out Hout.
    destruct (sys.ReadDir (filepath.Join [path i; "instances"]) w)
      as [[entries err] w1] eqn:Hread.
    destruct err as [e|].
    { unfold ChildInstances in Hout. rewrite Hroot in Hout. cbn [negb] in Hout.
      cbv zeta in Hout. unfold bind in Hout. rewrite Hread in Hout. discriminate Hout. }
    rewrite (ChildInstances_result i entries w w1 Hroot Hread) in Hout.
    assert (Eout : out = map (fun e => {| isRoot := false; name := sys.Name e;
                path := filepath.Join [filepath.Join [path i; "instances"]; sys.Name e] |})
                entries /\ w' = w1) by (split; congruence).
    destruct Eout as [-> ->]. exists entries. split; [reflexivity|].
    split; [rewrite map_map; reflexivity|].
    apply Forall_map. pose proof (ReadDir_names _ _ _ _ Hread) as Hnames.
    eapply Forall_impl; [exact Hnames|]. intros e He.
    split; [reflexivity|]. split; [now apply structural_not_root|].
    intros Hp. exact (proj2 (child_path i (sys.Name e) Hp He)).
  - intros n c Hc.
    destruct (sys.Mkdir (filepath.Join [path i; "instances"; n]) 511 w) as [err w1] eqn:Hmk.
    destruct err as [e|].
    { unfold NewInstance in Hc. rewrite Hroot in Hc. cbn [negb] in Hc.
      cbv zeta in Hc. unfold bind in Hc. rewrite Hmk in Hc. discriminate Hc. }
    rewrite (NewInstance_result i n w w1 Hroot Hmk) in Hc.
    assert (Ec : c = {| isRoot := false; path := filepath.Join [path i; "instances"; n];
                        name := n |} /\ w' = w1) by (split; congruence).
    destruct Ec as [-> ->].
    split; [reflexivity|]. split; [reflexivity|]. split; [reflexivity|].
    split; [now apply structural_not_root|].
    intros Hp Hn. exact (proj1 (child_path i n Hp Hn)).
Qed.

Lemma produced_instances_witness :
  isRoot DefaultInstance = true /\
  ChildInstances DefaultInstance tracing_world
    = (([ {| isRoot := false; path := "/sys/kernel/tracing/instances/bar"; name := "bar" |};
          {| isRoot := false; path := "/sys/kernel/tracing/instances/foo"; name := "foo" |} ],
        None), snd instances_read) /\
  exists entries,
    sys.ReadDir (filepath.Join [path DefaultInstance; "instances"]) tracing_world
      = ((entries, None), snd instances_read) /\
    map sys.Name entries = ["bar"; "foo"].
Proof.
  assert (H : ChildInstances DefaultInstance tracing_world
    = (([ {| isRoot := false; path := "/sys/kernel/tracing/instances/bar"; name := "bar" |};
          {| isRoot := false; path := "/sys/kernel/tracing/instances/foo"; name := "foo" |} ],
        None), snd instances_read)) by (vm_compute; reflexivity).
  split; [reflexivity|]. split; [exact H|].
  destruct (proj1 (produced_instances DefaultInstance tracing_world _ eq_refl) _ H)
    as (entries & Hread & Hnames & _).
  exists entries. split; [exact Hread | symmetry; exact Hnames].
Defined.

(** A root instance made from the mount path with a slash at its end
    lists children whose paths are not that root path, [/instances/]
    and the name put together. *)
Lemma ChildInstances_path_counterexample :
  let root := RootInstance "/sys/kernel/tracing/" in
  isRoot root = true /\
  fst (ChildInstances root tracing_world)
    = ([ {| isRoot := false; path := "/sys/kernel/tracing/instances/bar"; name := "bar" |};
         {| isRoot := false; path := "/sys/kernel/tracing/instances/foo"; name := "foo" |} ],
       None) /\
  "/sys/kernel/tracing/instances/bar" <> path root +:+ "/instances/" +:+ "bar".
Proof.
  split; [reflexivity|]. split; [vm_compute; reflexivity | discriminate].
Qed.

End ChildClaims.

(** * The enable switch of a probe *)
Section EnablePath.
Import os tracefs.

Lemma regular_name_nonempty (n : string) : regular_name n = true -> is_empty n = false.
Proof. destruct n; [discriminate | reflexivity]. Qed.

(** C3, amended.  For every instance whose path is clean and every
    event whose [Group] and [Event], where given, are made of regular
    elements, [UprobeEnablePath] gives
    [<instance path>/events/<Group>/<Event>/enable] when both are
    given, [<instance path>/events/uprobes/<Event>/enable] when only
    [Event] is, and [<instance path>/events/uprobes/enable] when
    [Event] is empty, whatever [Group] is. *)
Theorem UprobeEnablePath_cases (i : Instance) (e : UprobeEvent) :
  clean_base (path i) = true ->
  (regular_name (Group e) = true -> regular_name (Event e) = true ->
   UprobeEnablePath i e
   = path i +:+ "/events/" +:+ Group e +:+ "/" +:+ Event e +:+ "/enable") /\
  (Group e = "" -> regular_name (Event e) = true ->
   UprobeEnablePath i e = path i +:+ "/events/uprobes/" +:+ Event e +:+ "/enable") /\
  (Event e = "" ->
   UprobeEnablePath i e = path i +:+ "/events/uprobes/enable").
Proof.
  intros Hp. unfold UprobeEnablePath. repeat split.
  - intros Hg He.
    rewrite (regular_name_nonempty _ Hg), (regular_name_nonempty _ He). cbn [negb andb].
    rewrite Join_regular by (try assumption; cbn [forallb]; now rewrite Hg, He).
    cbn [slashed]. now rewrite ?string_app_nil_r.
  - intros Hg He.
    rewrite Hg, (regular_name_nonempty _ He). cbn [is_empty negb andb].
    rewrite Join_regular by (try assumption; cbn [forallb]; now rewrite He).
    cbn [slashed]. now rewrite ?string_app_nil_r.
  - intros He. rewrite He. cbn [is_empty negb andb]. rewrite andb_false_r.
    now rewrite Join_regular.
Qed.

Lemma UprobeEnablePath_cases_witness :
  clean_base (path DefaultInstance) = true /\
  UprobeEnablePath DefaultInstance sample_event
    = "/sys/kernel/tracing/events/grp/ev/enable" /\
  UprobeEnablePath DefaultInstance anonymous_probe
    = "/sys/kernel/tracing/events/uprobes/enable".
Proof.
  pose proof (UprobeEnablePath_cases DefaultInstance sample_event eq_refl) as H1.
  pose proof (UprobeEnablePath_cases DefaultInstance anonymous_probe eq_refl) as H2.
  split; [reflexivity|]. split.
  - exact (proj1 H1 eq_refl eq_refl).
  - exact (proj2 (proj2 H2) eq_refl).
Defined.

(** On an instance made from the mount path with a slash at its end, or
    for the group [".."], the path derived is not the instance path,
    [/events/] and the names put together: [Join] has cleaned it. *)
Lemma UprobeEnablePath_counterexample :
  let slash := RootInstance "/sys/kernel/tracing/" in
  let up := {| ReturnProbe := false; Group := ".."; Event := "ev"; Path := "/bin/true";
               Offset := 0; FetchArgs := [] |} in
  (Event anonymous_probe = "" /\
   UprobeEnablePath slash anonymous_probe = "/sys/kernel/tracing/events/uprobes/enable" /\
   UprobeEnablePath slash anonymous_probe <> path slash +:+ "/events/uprobes/enable") /\
  (Group up <> "" /\ Event up <> "" /\
   UprobeEnablePath DefaultInstance up = "/sys/kernel/tracing/ev/enable" /\
   UprobeEnablePath DefaultInstance up
   <> path DefaultInstance +:+ "/events/" +:+ Group up +:+ "/" +:+ Event up +:+ "/enable").
Proof.
  repeat split; discriminate.
Qed.

(** [EnableUprobe] and [DisableUprobe] hand the derived path, which
    starts with the instance path, to [writeFile], which joins it to
    the instance path once more. *)
Lemma EnableUprobe_target (i : Instance) (e : UprobeEvent) (w : World) :
  EnableUprobe i e w
    = sys.WriteFile (filepath.Join [path i; UprobeEnablePath i e]) "1" 511 w /\
  DisableUprobe i e w
    = sys.WriteFile (filepath.Join [path i; UprobeEnablePath i e]) "0" 511 w.
Proof. split; reflexivity. Qed.

Lemma EnableUprobe_default_instance :
  let switch := "/sys/kernel/tracing/events/uprobes/enable" in
  let written := "/sys/kernel/tracing/sys/kernel/tracing/events/uprobes/enable" in
  UprobeEnablePath DefaultInstance anonymous_probe = switch /\
  fst (EnableUprobe DefaultInstance anonymous_probe tracing_world)
    = Some (PathError "open" written ENOENT) /\
  calls (snd (EnableUprobe DefaultInstance anonymous_probe tracing_world))
    = [call_WriteFile written "1" 511] /\
  nodes (snd (EnableUprobe DefaultInstance anonymous_probe tracing_world)) !! switch
    = Some (File 416 ("0" +:+ String "010" "")).
Proof. repeat split; vm_compute; reflexivity. Qed.

End EnablePath.

(** * Registering a probe *)
Section Register.
Import os tracefs.




End Register.

(** * Absolute clean paths *)
Section AbsolutePaths.
Import filepath.

Lemma strings_Join_slashed (e : string) (es : list string) :
  String Separator (strings_Join (e :: es) "/") = slashed (e :: es).
Proof. now rewrite strings_Join_cons. Qed.

Lemma strings_Join_elements (s : string) : strings_Join (elements s) "/" = s.
Proof.
  pose proof (slashed_elements s) as H.
  destruct (elements s) as [|e es] eqn:E; [now destruct (elements_not_nil s)|].
  rewrite <- strings_Join_slashed in H. now injection H.
Qed.

Lemma elements_rooted (p : string) :
  rooted p = true -> elements p = "" :: tail (elements p).
Proof.
  destruct p as [|c p]; [discriminate|]. cbn [rooted elements]. now intros ->.
Qed.

Lemma elements_sep_free (p : string) :
  Forall (fun e => contains_byte Separator e = false) (elements p).
Proof.
  induction p as [|c p IH]; [repeat constructor|].
  cbn [elements]. destruct (IsPathSeparator c) eqn:Hc.
  - constructor; [reflexivity | exact IH].
  - pose proof (elements_not_nil p) as Hne.
    destruct (elements p) as [|e es]; [congruence|].
    inversion IH as [|? ? He Hes]; subst. constructor; [|exact Hes].
    cbn [contains_byte]. unfold IsPathSeparator, byte_eqb in *.
    now rewrite Ascii.eqb_sym, Hc, He.
Qed.

Lemma regular_sep_free (e : string) :
  regular_element e = true -> contains_byte Separator e = false -> regular_name e = true.
Proof.
  intros Hr Hs. unfold regular_name. rewrite elements_plain by assumption.
  cbn [forallb]. now rewrite Hr.
Qed.

Lemma regular_elements_names (p : string) :
  forallb regular_element (tail (elements p)) = true ->
  forallb regular_name (tail (elements p)) = true.
Proof.
  pose proof (elements_sep_free p) as Hfree.
  destruct (elements p) as [|e es]; [reflexivity|]. cbn [tail].
  inversion Hfree as [|? ? _ Hes]; subst. clear Hfree.
  induction es as [|x es IH]; [reflexivity|].
  inversion Hes; subst. cbn [forallb]. intros H. apply andb_prop in H as [Hx Hrest].
  rewrite regular_sep_free, IH by assumption. reflexivity.
Qed.

(** An absolute clean path is the separator and its elements in turn. *)
Lemma absolute_clean_slashed (p : string) :
  absolute_clean p = true ->
  p = slashed (tail (elements p)) /\
  tail (elements p) <> [] /\
  forallb regular_name (tail (elements p)) = true.
Proof.
  unfold absolute_clean. intros H. apply andb_prop in H as [Hr Hall].
  pose proof (slashed_elements p) as Hs. rewrite (elements_rooted p Hr) in Hs.
  cbn [slashed] in Hs. injection Hs as Hs.
  split; [now rewrite Hs|]. split; [|now apply regular_elements_names].
  destruct p as [|c p]; [discriminate|]. cbn [rooted] in Hr.
  cbn [elements]. rewrite Hr. cbn [tail]. apply elements_not_nil.
Qed.

(** Empty elements are passed over, regular ones copied. *)
Lemma clean_steps_skip (r : bool) (es : list string) (b : lazybuf) :
  forallb (fun e => is_empty e || regular_element e) es = true ->
  fold_left (clean_step r) es b
  = {| out := rev (filter (fun e => is_empty e = false) es) ++ out b;
       dotdot := dotdot b |}.
Proof.
  revert b. induction es as [|e es IH]; intros b H.
  - now destruct b.
  - cbn [forallb] in H. apply andb_prop in H as [He Hes].
    cbn [fold_left]. destruct e as [|c e].
    + change (clean_step r b "") with b. rewrite IH by assumption.
      rewrite filter_cons_False by (cbn; congruence). reflexivity.
    + cbn [is_empty orb] in He. rewrite clean_step_regular, IH by assumption.
      rewrite filter_cons_True by reflexivity.
      cbn [out dotdot rev]. now rewrite <- List.app_assoc.
Qed.

(** The separator in front of each of a list of regular names gives an
    absolute clean path, which [Clean] leaves as it is. *)
Lemma Clean_slashed (ns : list string) :
  ns <> [] ->
  forallb regular_name ns = true ->
  Clean (slashed ns) = slashed ns /\
  absolute_clean (slashed ns) = true.
Proof.
  intros Hne Hns.
  assert (Hel : elements (slashed ns) = "" :: flat_map elements ns).
  { exact (elements_slashed ns ""). }
  assert (Hroot : rooted (slashed ns) = true) by (destruct ns; [congruence | reflexivity]).
  pose proof (forallb_flat_elements ns Hns) as Hflat.
  split.
  - rewrite Clean_nonempty by (destruct ns; [congruence | discriminate]).
    rewrite Hroot, Hel. unfold clean_loop. cbn [fold_left].
    change (clean_step true _ "") with {| out := []; dotdot := 0 |}.
    rewrite clean_steps_regular by assumption. cbn [out]. rewrite List.app_nil_r.
    unfold render. rewrite rev_involutive.
    destruct (flat_map elements ns) as [|e es] eqn:E.
    + destruct ns as [|n ns]; [congruence|]. cbn [flat_map] in E.
      apply app_eq_nil in E as [E _]. now destruct (elements_not_nil n).
    + now rewrite strings_Join_slashed, <- E, slashed_flat_elements.
  - unfold absolute_clean. now rewrite Hroot, Hel.
Qed.

Lemma absolute_clean_base (p : string) : absolute_clean p = true -> clean_base p = true.
Proof.
  intros H. destruct (absolute_clean_slashed p H) as (Hp & Hne & Hns).
  destruct (Clean_slashed _ Hne Hns) as [Hc _]. rewrite <- Hp in Hc.
  unfold clean_base, string_eqb. rewrite Hc, String.eqb_refl.
  unfold absolute_clean in H. apply andb_prop in H as [Hr Hall].
  assert (Hlen : 2 <= String.length p).
  { destruct p as [|c [|d p]]; [discriminate | | simpl; lia].
    cbn [rooted] in Hr. apply Ascii.eqb_eq in Hr. subst c. discriminate Hall. }
  apply andb_true_intro. split; [apply andb_true_intro; split; [reflexivity|]|];
    apply negb_true_iff, String.eqb_neq; intros E; rewrite E in Hlen; simpl in Hlen; lia.
Qed.

(** A regular name after an absolute clean path gives one again. *)
Lemma absolute_clean_names (p : string) (ns : list string) :
  absolute_clean p = true ->
  forallb regular_name ns = true ->
  absolute_clean (p +:+ slashed ns) = true /\
  p +:+ slashed ns = slashed (tail (elements p) ++ ns).
Proof.
  intros Hp Hns. destruct (absolute_clean_slashed p Hp) as (Hs & Hne & Hall).
  assert (E : p +:+ slashed ns = slashed (tail (elements p) ++ ns))
    by (now rewrite slashed_app, <- Hs).
  split; [|exact E]. rewrite E. apply Clean_slashed.
  - intros H. apply app_eq_nil in H as [H _]. auto.
  - rewrite forallb_app. now rewrite Hall, Hns.
Qed.

(** [Join] of two absolute clean paths puts one after the other. *)
Lemma Join_absolute (p q : string) :
  absolute_clean p = true ->
  absolute_clean q = true ->
  Join [p; q] = p +:+ q /\ absolute_clean (p +:+ q) = true.
Proof.
  intros Hp Hq.
  destruct (absolute_clean_slashed q Hq) as (Hs & Hne & Hall).
  destruct (absolute_clean_names p _ Hp Hall) as [Habs E]. rewrite <- Hs in Habs, E.
  split; [|exact Habs].
  assert (Hpne : p <> "") by (intros ->; discriminate Hp).
  rewrite Join_nonempty by assumption.
  change (strings_Join [p; q] "/") with (p +:+ String Separator q).
  rewrite Clean_nonempty by (destruct p; [congruence | discriminate]).
  rewrite rooted_app, elements_app_sep by assumption.
  unfold absolute_clean in Hp, Hq.
  apply andb_prop in Hp as [Hrp Hep]. apply andb_prop in Hq as [Hrq Heq].
  rewrite Hrp, (elements_rooted p Hrp), (elements_rooted q Hrq).
  unfold clean_loop. rewrite clean_steps_skip.
  2:{ rewrite forallb_app. cbn [forallb is_empty orb].
      apply andb_true_intro; split; apply forallb_forall; intros x Hx;
        [rewrite forallb_forall in Hep | rewrite forallb_forall in Heq];
        apply orb_true_iff; right; auto. }
  cbn [out]. rewrite List.app_nil_r, filter_app.
  rewrite 2 filter_cons_False by (cbn; congruence).
  assert (Hkeep : forall l, forallb regular_element l = true ->
                            filter (fun e => is_empty e = false) l = l).
  { induction l as [|x l IH]; [reflexivity|]. cbn [forallb]. intros H.
    apply andb_prop in H as [Hx Hl].
    rewrite filter_cons_True by (destruct x; [discriminate | reflexivity]).
    now rewrite IH. }
  rewrite !Hkeep by assumption. unfold render. rewrite rev_involutive.
  destruct (tail (elements p) ++ tail (elements q)) as [|e es] eqn:El.
  - apply app_eq_nil in El as [_ El]. congruence.
  - now rewrite strings_Join_slashed, E.
Qed.

End AbsolutePaths.

(** * Whole-file reads and writes in the model *)
Section Files.
Import os tracefs.

Lemma ReadFile_run (n : string) (w : World) :
  sys.ReadFile n w =
  (match nodes w !! filepath.Clean n with
   | Some (File _ data) => (data, None)
   | Some (Directory _) => ("", Some (PathError "read" n EISDIR))
   | None => ("", Some (PathError "open" n ENOENT))
   end, snd (log (call_ReadFile n) w)).
Proof.
  unfold sys.ReadFile, bind, log, get_nodes, ret. cbn.
  destruct (nodes w !! filepath.Clean n) as [[]|]; reflexivity.
Qed.

Lemma ReadFile_same_node (n : string) (w1 w2 : World) :
  nodes w1 !! filepath.Clean n = nodes w2 !! filepath.Clean n ->
  fst (sys.ReadFile n w1) = fst (sys.ReadFile n w2).
Proof. intros H. rewrite !ReadFile_run. cbn [fst]. now rewrite H. Qed.

(** A write that succeeds leaves the data in the file at the cleaned
    name. *)
Lemma WriteFile_written (n data : string) (perm : N) (w w1 : World) :
  sys.WriteFile n data perm w = (None, w1) ->
  exists mode, nodes w1 !! filepath.Clean n = Some (File mode data).
Proof.
  unfold sys.WriteFile, bind, log, get_nodes, put_nodes, ret. cbn.
  destruct (nodes w !! filepath.Clean n) as [[mode old|mode]|] eqn:E.
  - intros H. injection H as <-. exists mode. cbn. apply lookup_insert_eq.
  - discriminate.
  - destruct (sys.parent_error _ _ _); [discriminate|].
    intros H. injection H as <-. exists perm. cbn. apply lookup_insert_eq.
Qed.

(** A write changes no node but the one at the cleaned name. *)
Lemma WriteFile_frame (n data : string) (perm : N) (w : World) (k : string) :
  k <> filepath.Clean n ->
  nodes (snd (sys.WriteFile n data perm w)) !! k = nodes w !! k.
Proof.
  intros Hk. unfold sys.WriteFile, bind, log, get_nodes, put_nodes, ret. cbn.
  destruct (nodes w !! filepath.Clean n) as [[mode old|mode]|] eqn:E; cbn;
    try reflexivity.
  - now rewrite lookup_insert_ne.
  - destruct (sys.parent_error _ _ _); cbn; [reflexivity|].
    now rewrite lookup_insert_ne.
Qed.

Lemma clean_base_Clean (p : string) : clean_base p = true -> filepath.Clean p = p.
Proof.
  unfold clean_base. intros H. apply andb_prop in H as [H _].
  apply andb_prop in H as [H _]. now apply string_eqb_true in H.
Qed.



Lemma writeFile_frame (i : Instance) (n b : string) (w : World) (k : string) :
  k <> node_key i n ->
  nodes (snd (writeFile i n b w)) !! k = nodes w !! k.
Proof. intros Hk. unfold writeFile. now apply WriteFile_frame. Qed.

End Files.

(** * The switch and the tracer, written and read back *)
Section Control.
Import os tracefs.

Variable trim : string -> string.

Lemma TrimSpace_tight (s : string) : tight s = true -> bytes.TrimSpace trim s = s.
Proof.
  intros H. pose proof (TrimSpace_around trim "" s "" eq_refl eq_refl H) as E.
  cbn [String.append] in E. now rewrite string_app_nil_r in E.
Qed.

Lemma readFile_fst (i : Instance) (n : string) (w : World) :
  fst (readFile trim i n w) =
  match nodes w !! node_key i n with
  | Some (File _ data) => (bytes.TrimSpace trim data, None)
  | Some (Directory _) => ("", Some (PathError "read" (filepath.Join [path i; n]) EISDIR))
  | None => ("", Some (PathError "open" (filepath.Join [path i; n]) ENOENT))
  end.
Proof.
  unfold readFile, bind, node_key. rewrite ReadFile_run.
  now destruct (nodes w !! _) as [[]|].
Qed.

Lemma readFile_after_write (i : Instance) (n b : string) (w w1 : World) :
  writeFile i n b w = (None, w1) ->
  fst (readFile trim i n w1) = (bytes.TrimSpace trim b, None).
Proof.
  unfold writeFile. intros H. apply WriteFile_written in H as [mode H].
  rewrite readFile_fst. unfold node_key. now rewrite H.
Qed.

Lemma On_fst (i : Instance) (w : World) :
  fst (On trim i w) =
  match fst (readFile trim i "tracing_on" w) with
  | (_, Some e) => (false, Some e)
  | (result, None) =>
      if string_eqb result "0" then (false, None)
      else if string_eqb result "1" then (true, None)
      else (false, Errorf [fmt.text "unknown on value: "; fmt.verb_s result])
  end.
Proof.
  unfold On, bind, tracingOnPath.
  destruct (readFile trim i "tracing_on" w) as [[result [e|]] w1]; [reflexivity|].
  cbn [fst]. destruct (string_eqb result "0"); [reflexivity|].
  destruct (string_eqb result "1"); reflexivity.
Qed.

Lemma CurrentTracer_fst (i : Instance) (w : World) :
  fst (CurrentTracer trim i w) =
  match fst (readFile trim i "current_tracer" w) with
  | (_, Some e) => ("", Some e)
  | (tracer, None) => (tracer, None)
  end.
Proof.
  unfold CurrentTracer, bind, curTracerPath.
  now destruct (readFile trim i "current_tracer" w) as [[tracer [e|]] w1].
Qed.


(** X1.  After [Enable] has succeeded [On] gives [true], after
    [Disable] has succeeded it gives [false]: the switch reads back as
    it was last written. *)
Theorem Enable_Disable_then_On (i : Instance) (w w1 : World) :
  (Enable i w = (None, w1) -> fst (On trim i w1) = (true, None)) /\
  (Disable i w = (None, w1) -> fst (On trim i w1) = (false, None)).
Proof.
  split; intros H; rewrite On_fst;
    unfold Enable, Disable, tracingOnPath in H;
    now rewrite (readFile_after_write _ _ _ _ _ H).
Qed.

(** X2.  After [SetTracer t] has succeeded [CurrentTracer] gives [t]
    with the whitespace around it trimmed, so [t] itself when it has
    none. *)
Theorem SetTracer_then_CurrentTracer (i : Instance) (t : Tracer) (w w1 : World) :
  SetTracer i t w = (None, w1) ->
  fst (CurrentTracer trim i w1) = (bytes.TrimSpace trim t, None) /\
  (tight t = true -> fst (CurrentTracer trim i w1) = (t, None)).
Proof.
  intros H. unfold SetTracer, curTracerPath in H.
  rewrite CurrentTracer_fst, (readFile_after_write _ _ _ _ _ H).
  split; [reflexivity|]. intros Ht. now rewrite TrimSpace_tight.
Qed.


End Control.

Section ControlChecks.
Import os tracefs.

Lemma Enable_Disable_then_On_witness :
  Disable DefaultInstance tracing_world = (None, snd (Disable DefaultInstance tracing_world)) /\
  fst (On (fun s => s) DefaultInstance (snd (Disable DefaultInstance tracing_world)))
    = (false, None).
Proof.
  assert (H : Disable DefaultInstance tracing_world
              = (None, snd (Disable DefaultInstance tracing_world)))
    by (vm_compute; reflexivity).
  split; [exact H|].
  exact (proj2 (Enable_Disable_then_On (fun s => s) DefaultInstance tracing_world _) H).
Defined.

Lemma SetTracer_then_CurrentTracer_witness :
  SetTracer DefaultInstance FunctionTracer tracing_world
    = (None, snd (SetTracer DefaultInstance FunctionTracer tracing_world)) /\
  tight FunctionTracer = true /\
  fst (CurrentTracer (fun s => s) DefaultInstance
         (snd (SetTracer DefaultInstance FunctionTracer tracing_world)))
    = ("function", None).
Proof.
  assert (H : SetTracer DefaultInstance FunctionTracer tracing_world
              = (None, snd (SetTracer DefaultInstance FunctionTracer tracing_world)))
    by (vm_compute; reflexivity).
  split; [exact H|]. split; [reflexivity|].
  exact (proj2 (SetTracer_then_CurrentTracer (fun s => s) DefaultInstance FunctionTracer
                  tracing_world _ H) eq_refl).
Defined.


End ControlChecks.

(** * Operations that only read *)
Section ReadOnly.
Import os tracefs.

Variable trim : string -> string.




End ReadOnly.

(** * Where [EnableUprobe] writes *)
Section EnableTarget.
Import os tracefs.

Lemma UprobeEnablePath_names (i : Instance) (e : UprobeEvent) :
  UprobeEnablePath i e = filepath.Join (path i :: switch_names e).
Proof.
  unfold UprobeEnablePath, switch_names.
  destruct (negb (is_empty (Group e)) && negb (is_empty (Event e))); [reflexivity|].
  destruct (negb (is_empty (Event e))); reflexivity.
Qed.

Lemma UprobeEnablePath_absolute (i : Instance) (e : UprobeEvent) :
  absolute_clean (path i) = true ->
  regular_naming e = true ->
  UprobeEnablePath i e = path i +:+ slashed (switch_names e) /\
  absolute_clean (UprobeEnablePath i e) = true.
Proof.
  intros Hp He. rewrite UprobeEnablePath_names.
  rewrite Join_regular by (try assumption; now apply absolute_clean_base).
  split; [reflexivity|]. now apply absolute_clean_names.
Qed.

(** X5.  On an instance whose path is absolute and clean, [EnableUprobe]
    and [DisableUprobe] write ["1"] and ["0"] to the path of the
    instance followed by the derived path, which starts with the path
    of the instance once more; it is not the derived path. *)
Theorem EnableUprobe_writes_to (i : Instance) (e : UprobeEvent) (w : World) :
  absolute_clean (path i) = true ->
  regular_naming e = true ->
  let target := path i +:+ UprobeEnablePath i e in
  EnableUprobe i e w = sys.WriteFile target "1" 511 w /\
  DisableUprobe i e w = sys.WriteFile target "0" 511 w /\
  target = path i +:+ path i +:+ slashed (switch_names e) /\
  target <> UprobeEnablePath i e.
Proof.
  intros Hp He target.
  destruct (UprobeEnablePath_absolute i e Hp He) as [Htext Habs].
  destruct (Join_absolute _ _ Hp Habs) as [HJ _].
  unfold EnableUprobe, DisableUprobe, writeFile. rewrite HJ.
  split; [reflexivity|]. split; [reflexivity|].
  split; [unfold target; now rewrite Htext|].
  unfold target. intros E. apply (f_equal String.length) in E.
  rewrite string_length_app in E.
  destruct (path i); [discriminate Hp | simpl in E; lia].
Qed.

(** X6.  On such an instance [EnableUprobe] and [DisableUprobe] leave
    the node at the derived path, the switch of the probe, as it
    was. *)
Theorem EnableUprobe_keeps_switch (i : Instance) (e : UprobeEvent) (w : World) :
  absolute_clean (path i) = true ->
  regular_naming e = true ->
  nodes (snd (EnableUprobe i e w)) !! UprobeEnablePath i e
    = nodes w !! UprobeEnablePath i e /\
  nodes (snd (DisableUprobe i e w)) !! UprobeEnablePath i e
    = nodes w !! UprobeEnablePath i e.
Proof.
  intros Hp He.
  destruct (UprobeEnablePath_absolute i e Hp He) as [Htext Habs].
  destruct (Join_absolute _ _ Hp Habs) as [HJ Habs2].
  assert (Hne : UprobeEnablePath i e <> node_key i (UprobeEnablePath i e)).
  { unfold node_key. rewrite HJ, (clean_base_Clean _ (absolute_clean_base _ Habs2)).
    intros E. apply (f_equal String.length) in E. rewrite string_length_app in E.
    destruct (path i); [discriminate Hp | simpl in E; lia]. }
  split; apply writeFile_frame; exact Hne.
Qed.

Lemma EnableUprobe_writes_to_witness :
  absolute_clean (path DefaultInstance) = true /\
  regular_naming sample_event = true /\
  EnableUprobe DefaultInstance sample_event tracing_world
    = sys.WriteFile "/sys/kernel/tracing/sys/kernel/tracing/events/grp/ev/enable" "1" 511
        tracing_world.
Proof.
  split; [reflexivity|]. split; [reflexivity|].
  exact (proj1 (EnableUprobe_writes_to DefaultInstance sample_event tracing_world
                  eq_refl eq_refl)).
Defined.

Lemma EnableUprobe_keeps_switch_witness :
  absolute_clean (path DefaultInstance) = true /\
  regular_naming anonymous_probe = true /\
  nodes (snd (EnableUprobe DefaultInstance anonymous_probe tracing_world))
    !! "/sys/kernel/tracing/events/uprobes/enable"
  = nodes tracing_world !! "/sys/kernel/tracing/events/uprobes/enable".
Proof.
  split; [reflexivity|]. split; [reflexivity|].
  exact (proj1 (EnableUprobe_keeps_switch DefaultInstance anonymous_probe tracing_world
                  eq_refl eq_refl)).
Defined.

End EnableTarget.

(** * Creating, listing and destroying instances *)
Section Lifecycle.
Import os tracefs.

Lemma Mkdir_ok (n : string) (perm : N) (w w1 : World) :
  sys.Mkdir n perm w = (None, w1) ->
  nodes w !! filepath.Clean n = None /\
  (exists mode, nodes w !! filepath.Dir n = Some (Directory mode)) /\
  nodes w1 = <[filepath.Clean n := Directory perm]> (nodes w).
Proof.
  unfold sys.Mkdir, sys.parent_error, bind, log, get_nodes, put_nodes, ret.
  cbn [nodes fst snd].
  destruct (nodes w !! filepath.Clean n) eqn:E; [discriminate|].
  destruct (nodes w !! filepath.Dir n) as [[mode data|mode]|] eqn:Ed; try discriminate.
  intros H. injection H as <-. split; [reflexivity|]. split; [now exists mode | reflexivity].
Qed.

Lemma Mkdir_exists (n : string) (perm : N) (w : World) :
  is_Some (nodes w !! filepath.Clean n) ->
  sys.Mkdir n perm w = (Some (PathError "mkdir" n EEXIST), snd (log (call_Mkdir n perm) w)).
Proof.
  intros [x E]. unfold sys.Mkdir, bind, log, get_nodes, ret. cbn [nodes fst snd].
  now rewrite E.
Qed.

Lemma Remove_ok (n : string) (w w1 : World) :
  sys.Remove n w = (None, w1) -> nodes w1 = delete (filepath.Clean n) (nodes w).
Proof.
  unfold sys.Remove, bind, log, get_nodes, put_nodes, ret. cbn [nodes fst snd].
  destruct (nodes w !! filepath.Clean n) as [[mode data|mode]|]; try discriminate.
  - intros H. now injection H as <-.
  - destruct (sys.entries _ _); [|discriminate]. intros H. now injection H as <-.
Qed.

Lemma ReadDir_run (n : string) (w : World) :
  sys.ReadDir n w =
  (match nodes w !! filepath.Clean n with
   | Some (Directory _) =>
       (map sys.Build_DirEntry (sys.entries (filepath.Clean n) (nodes w)), None)
   | Some (File _ _) => ([], Some (PathError "readdirent" n ENOTDIR))
   | None => ([], Some (PathError "open" n ENOENT))
   end, snd (log (call_ReadDir n) w)).
Proof.
  unfold sys.ReadDir, bind, log, get_nodes, ret. cbn [nodes fst snd].
  destruct (nodes w !! filepath.Clean n) as [[]|]; reflexivity.
Qed.

(** What [NewInstance] has done when it gives an instance. *)
Lemma NewInstance_ok (i : Instance) (n : string) (c : Instance) (w w1 : World) :
  isRoot i = true ->
  NewInstance i n w = ((Some c, None), w1) ->
  sys.Mkdir (filepath.Join [path i; "instances"; n]) 511 w = (None, w1) /\
  c = {| isRoot := false; path := filepath.Join [path i; "instances"; n]; name := n |}.
Proof.
  intros Hroot H.
  destruct (sys.Mkdir (filepath.Join [path i; "instances"; n]) 511 w) as [err w'] eqn:Hmk.
  destruct err as [e|].
  - unfold NewInstance in H. rewrite Hroot in H. cbn [negb] in H. cbv zeta in H.
    unfold bind in H. rewrite Hmk in H. discriminate H.
  - rewrite (NewInstance_result i n w w' Hroot Hmk) in H. split; congruence.
Qed.

(** What [ChildInstances] has done when it gives a list. *)
Lemma ChildInstances_ok (i : Instance) (out : list Instance) (w w1 : World) :
  isRoot i = true ->
  ChildInstances i w = ((out, None), w1) ->
  exists entries,
    sys.ReadDir (filepath.Join [path i; "instances"]) w = ((entries, None), w1) /\
    out = map (fun e => {| isRoot := false; name := sys.Name e;
                           path := filepath.Join [filepath.Join [path i; "instances"];
                                                  sys.Name e] |}) entries.
Proof.
  intros Hroot H.
  destruct (sys.ReadDir (filepath.Join [path i; "instances"]) w)
    as [[entries err] w'] eqn:Hread.
  destruct err as [e|].
  - unfold ChildInstances in H. rewrite Hroot in H. cbn [negb] in H. cbv zeta in H.
    unfold bind in H. rewrite Hread in H. discriminate H.
  - rewrite (ChildInstances_result i entries w w' Hroot Hread) in H.
    exists entries. split; congruence.
Qed.

Lemma Clean_trailing (q : string) :
  q <> "" -> filepath.Clean (q +:+ "/") = filepath.Clean q.
Proof.
  intros Hq. rewrite (Clean_nonempty q) by assumption.
  rewrite (Clean_nonempty (q +:+ "/")) by (destruct q; [congruence|discriminate]).
  rewrite rooted_app by assumption.
  change "/" with (String filepath.Separator "").
  rewrite elements_app_sep. unfold filepath.clean_loop. rewrite fold_left_app.
  reflexivity.
Qed.

(** The directory of an entry of a clean base is the base. *)
Lemma Dir_extend (q n : string) :
  clean_base q = true ->
  contains_byte filepath.Separator n = false ->
  filepath.Dir (q +:+ "/" +:+ n) = q.
Proof.
  intros Hq Hn. pose proof (clean_base_nonempty q Hq) as Hne.
  unfold filepath.Dir.
  change ("/" +:+ n) with (String filepath.Separator n).
  rewrite elements_app_sep, (elements_plain n), rev_app_distr by assumption.
  cbn [rev app]. rewrite rev_involutive, strings_Join_elements, rooted_app by assumption.
  destruct (filepath.rooted q).
  - rewrite Clean_trailing by assumption. now apply clean_base_Clean.
  - rewrite string_app_nil_r. now apply clean_base_Clean.
Qed.

Lemma entry_name_sep_free (n : string) :
  sys.entry_name n = true -> contains_byte filepath.Separator n = false.
Proof.
  unfold sys.entry_name. intros H. apply andb_prop in H as [_ H].
  now apply negb_true_iff in H.
Qed.

(** The paths around a child of a root with a clean path. *)
Lemma child_keys (i : Instance) (n : string) :
  clean_base (path i) = true ->
  sys.entry_name n = true ->
  let dir := path i +:+ "/instances" in
  let key := path i +:+ "/instances/" +:+ n in
  filepath.Join [path i; "instances"] = dir /\
  filepath.Clean dir = dir /\
  filepath.Join [path i; "instances"; n] = key /\
  filepath.Join [dir; n] = key /\
  filepath.Clean key = key /\
  filepath.Dir key = dir /\
  key <> dir /\
  sys.entry_of dir key = Some n.
Proof.
  intros Hp Hn dir key.
  pose proof (entry_name_regular n Hn) as Hreg.
  pose proof (entry_name_sep_free n Hn) as Hfree.
  destruct (instances_path i Hp) as [Hdir Hcdir]. fold dir in Hdir, Hcdir.
  destruct (child_path i n Hp Hreg) as [Hkey _]. fold key in Hkey.
  destruct (clean_base_extend dir n Hcdir Hreg) as [HJ Hckey].
  assert (E : dir +:+ "/" +:+ n = key) by (unfold dir, key; now rewrite string_app_assoc).
  rewrite E in HJ, Hckey.
  assert (Hne : key <> dir).
  { intros H. apply (f_equal String.length) in H. rewrite <- E in H.
    rewrite !string_length_app in H. simpl in H. lia. }
  split; [exact Hdir|]. split; [now apply clean_base_Clean|].
  split; [exact Hkey|]. split; [exact HJ|]. split; [now apply clean_base_Clean|].
  split; [rewrite <- E; now apply Dir_extend|]. split; [exact Hne|].
  assert (Hlast : last (filepath.elements key) = Some n).
  { rewrite <- E. change ("/" +:+ n) with (String filepath.Separator n).
    now rewrite elements_app_sep, (elements_plain n), last_snoc. }
  unfold sys.entry_of. cbv zeta. rewrite Hlast.
  change (default "" (Some n)) with n.
  unfold string_eqb. now rewrite Hn, HJ, String.eqb_refl.
Qed.

Lemma entries_elem (dir : string) (ns : gmap string Node) (n : string) :
  n ∈ sys.entries dir ns <->
  exists k v, ns !! k = Some v /\ sys.entry_of dir k = Some n.
Proof.
  unfold sys.entries. rewrite merge_sort_Permutation, list_elem_of_omap. split.
  - intros ([k v] & Hin & He). apply elem_of_map_to_list in Hin. now exists k, v.
  - intros (k & v & Hin & He). exists (k, v). split; [now apply elem_of_map_to_list | exact He].
Qed.

Lemma entry_of_key (dir k n : string) :
  sys.entry_of dir k = Some n -> filepath.Join [dir; n] = k.
Proof.
  unfold sys.entry_of.
  destruct (sys.entry_name _); [|discriminate]. cbn [andb].
  destruct (string_eqb _ k) eqn:E; [|discriminate].
  intros H. injection H as <-. now apply string_eqb_true in E.
Qed.

(** X7.  An instance [NewInstance] has made on a root with a clean path
    is among those [ChildInstances] lists next. *)
Theorem NewInstance_then_ChildInstances (i : Instance) (n : string) (c : Instance)
    (w w1 : World) :
  isRoot i = true ->
  clean_base (path i) = true ->
  sys.entry_name n = true ->
  NewInstance i n w = ((Some c, None), w1) ->
  exists out w2, ChildInstances i w1 = ((out, None), w2) /\ In c out.
Proof.
  intros Hroot Hp Hn Hnew.
  destruct (NewInstance_ok i n c w w1 Hroot Hnew) as [Hmk ->].
  destruct (child_keys i n Hp Hn) as (Hdir & Hcdir & Hkey & HJ & Hckey & HD & Hne & Hent).
  apply Mkdir_ok in Hmk as (Hfree & [mode Hparent] & Hnodes).
  rewrite Hkey, Hckey in Hfree, Hnodes. rewrite Hkey, HD in Hparent.
  pose proof (ReadDir_run (filepath.Join [path i; "instances"]) w1) as Hread.
  rewrite Hdir, Hcdir, Hnodes, lookup_insert_ne, Hparent in Hread by exact Hne.
  rewrite <- Hdir in Hread at 1.
  eexists. eexists. split; [exact (ChildInstances_result i _ w1 _ Hroot Hread)|].
  apply in_map_iff. exists {| sys.Name := n |}. cbn [sys.Name]. split.
    + rewrite Hdir, HJ, Hkey. reflexivity.
    + apply in_map, list_elem_of_In, entries_elem.
      exists (path i +:+ "/instances/" +:+ n), (Directory 511).
      split; [apply lookup_insert_eq | exact Hent].
Qed.

(** X8.  When [Destroy] succeeds on the instance [NewInstance] has just
    made, the nodes of the filesystem are those there were before. *)
Theorem NewInstance_then_Destroy (i : Instance) (n : string) (c : Instance)
    (w w1 w2 : World) :
  isRoot i = true ->
  NewInstance i n w = ((Some c, None), w1) ->
  Destroy c w1 = (None, w2) ->
  nodes w2 = nodes w.
Proof.
  intros Hroot Hnew Hdel.
  destruct (NewInstance_ok i n c w w1 Hroot Hnew) as [Hmk ->].
  apply Mkdir_ok in Hmk as (Hfree & _ & Hnodes).
  unfold Destroy in Hdel. cbn [isRoot path] in Hdel.
  apply Remove_ok in Hdel. rewrite Hdel, Hnodes, delete_insert_eq.
  now apply delete_id.
Qed.

(** X9.  [NewInstance] with a name it has just made an instance of fails
    with the error that the directory exists, gives no instance and
    leaves the nodes as they are. *)
Theorem NewInstance_twice (i : Instance) (n : string) (c : Instance) (w w1 : World) :
  isRoot i = true ->
  NewInstance i n w = ((Some c, None), w1) ->
  fst (NewInstance i n w1)
    = (None, Some (PathError "mkdir" (filepath.Join [path i; "instances"; n]) EEXIST)) /\
  nodes (snd (NewInstance i n w1)) = nodes w1.
Proof.
  intros Hroot Hnew.
  destruct (NewInstance_ok i n c w w1 Hroot Hnew) as [Hmk _].
  apply Mkdir_ok in Hmk as (_ & _ & Hnodes).
  unfold NewInstance. rewrite Hroot. cbn [negb]. cbv zeta. unfold bind.
  rewrite Mkdir_exists by (rewrite Hnodes, lookup_insert_eq; eauto).
  split; reflexivity.
Qed.

(** X10.  Once [Destroy] has succeeded on a child of a root with a
    clean path, [ChildInstances] on the root lists no instance of that
    name. *)
Theorem Destroy_then_ChildInstances (i c : Instance) (n : string) (out : list Instance)
    (w w1 w2 : World) :
  isRoot i = true ->
  clean_base (path i) = true ->
  sys.entry_name n = true ->
  isRoot c = false ->
  path c = path i +:+ "/instances/" +:+ n ->
  Destroy c w = (None, w1) ->
  ChildInstances i w1 = ((out, None), w2) ->
  ~ In n (map name out).
Proof.
  intros Hroot Hp Hn Hc Hpath Hdel Hlist Hin.
  destruct (child_keys i n Hp Hn) as (Hdir & Hcdir & Hkey & HJ & Hckey & HD & Hne & Hent).
  rewrite (Destroy_not_root c w Hc), Hpath in Hdel. apply Remove_ok in Hdel.
  rewrite Hckey in Hdel.
  destruct (ChildInstances_ok i out w1 w2 Hroot Hlist) as (entries & Hread & ->).
  rewrite ReadDir_run, Hdir, Hcdir in Hread.
  destruct (nodes w1 !! (path i +:+ "/instances")) as [[|]|]; try discriminate.
  injection Hread as <- _.
  rewrite !map_map in Hin. cbn [name sys.Name] in Hin. rewrite map_id in Hin.
  apply list_elem_of_In, entries_elem in Hin as (k & v & Hk & He).
  apply entry_of_key in He. rewrite HJ in He. subst k.
  rewrite Hdel, lookup_delete_eq in Hk. discriminate.
Qed.

End Lifecycle.

Section LifecycleChecks.
Import os tracefs.


Lemma NewInstance_then_ChildInstances_witness :
  let c := {| isRoot := false; path := "/sys/kernel/tracing/instances/probe1";
              name := "probe1" |} in
  let w1 := snd (NewInstance DefaultInstance "probe1" tracing_world) in
  isRoot DefaultInstance = true /\
  clean_base (path DefaultInstance) = true /\
  sys.entry_name "probe1" = true /\
  NewInstance DefaultInstance "probe1" tracing_world = ((Some c, None), w1) /\
  exists out w2, ChildInstances DefaultInstance w1 = ((out, None), w2) /\ In c out.
Proof.
  intros c w1.
  assert (H : NewInstance DefaultInstance "probe1" tracing_world = ((Some c, None), w1))
    by (vm_compute; reflexivity).
  split; [reflexivity|]. split; [reflexivity|]. split; [reflexivity|]. split; [exact H|].
  exact (NewInstance_then_ChildInstances DefaultInstance "probe1" c tracing_world w1
           eq_refl eq_refl eq_refl H).
Defined.

Lemma NewInstance_then_Destroy_witness :
  let c := {| isRoot := false; path := "/sys/kernel/tracing/instances/probe1";
              name := "probe1" |} in
  let w1 := snd (NewInstance DefaultInstance "probe1" tracing_world) in
  let w2 := snd (Destroy c w1) in
  isRoot DefaultInstance = true /\
  NewInstance DefaultInstance "probe1" tracing_world = ((Some c, None), w1) /\
  Destroy c w1 = (None, w2) /\
  nodes w2 = nodes tracing_world.
Proof.
  intros c w1 w2.
  assert (H1 : NewInstance DefaultInstance "probe1" tracing_world = ((Some c, None), w1))
    by (vm_compute; reflexivity).
  assert (H2 : Destroy c w1 = (None, w2)) by (vm_compute; reflexivity).
  split; [reflexivity|]. split; [exact H1|]. split; [exact H2|].
  exact (NewInstance_then_Destroy DefaultInstance "probe1" c tracing_world w1 w2
           eq_refl H1 H2).
Defined.

Lemma NewInstance_twice_witness :
  let c := {| isRoot := false; path := "/sys/kernel/tracing/instances/probe1";
              name := "probe1" |} in
  let w1 := snd (NewInstance DefaultInstance "probe1" tracing_world) in
  isRoot DefaultInstance = true /\
  NewInstance DefaultInstance "probe1" tracing_world = ((Some c, None), w1) /\
  fst (NewInstance DefaultInstance "probe1" w1)
    = (None, Some (PathError "mkdir" "/sys/kernel/tracing/instances/probe1" EEXIST)).
Proof.
  intros c w1.
  assert (H : NewInstance DefaultInstance "probe1" tracing_world = ((Some c, None), w1))
    by (vm_compute; reflexivity).
  split; [reflexivity|]. split; [exact H|].
  exact (proj1 (NewInstance_twice DefaultInstance "probe1" c tracing_world w1 eq_refl H)).
Defined.

Lemma Destroy_then_ChildInstances_witness :
  let bar := {| isRoot := false; path := "/sys/kernel/tracing/instances/bar";
                name := "bar" |} in
  let foo := {| isRoot := false; path := "/sys/kernel/tracing/instances/foo";
                name := "foo" |} in
  let w1 := snd (Destroy bar tracing_world) in
  let w2 := snd (ChildInstances DefaultInstance w1) in
  Destroy bar tracing_world = (None, w1) /\
  ChildInstances DefaultInstance w1 = (([foo], None), w2) /\
  ~ In "bar" (map name [foo]).
Proof.
  intros bar foo w1 w2.
  assert (H1 : Destroy bar tracing_world = (None, w1)) by (vm_compute; reflexivity).
  assert (H2 : ChildInstances DefaultInstance w1 = (([foo], None), w2))
    by (vm_compute; reflexivity).
  split; [exact H1|]. split; [exact H2|].
  exact (Destroy_then_ChildInstances DefaultInstance bar "bar" [foo] tracing_world w1 w2
           eq_refl eq_refl eq_refl eq_refl eq_refl H1 H2).
Defined.

End LifecycleChecks.

(** * More on the rule line *)
Section RuleMore.
Import tracefs grammar.

Lemma hex_digits_exclude (c : ascii) (s : string) :
  lower_hex_digit c = false ->
  all_bytes lower_hex_digit s = true -> contains_byte c s = false.
Proof.
  intros Hc. induction s as [|d s IH]; intros H; [reflexivity|].
  cbn [all_bytes contains_byte] in *.
  apply andb_prop in H as [Hd Hs]. rewrite IH by assumption.
  rewrite orb_false_r. unfold byte_eqb.
  destruct (Ascii.eqb_spec c d) as [<-|]; [congruence | reflexivity].
Qed.

Lemma fetch_text_newline_free (args : list FetchArg) :
  Forall (fun a => contains_byte "010" (FetchArg_String a) = false) args ->
  contains_byte "010" (fetch_text args) = false.
Proof.
  induction 1 as [|a args Ha _ IH]; [reflexivity|].
  cbn [fetch_text]. now rewrite !contains_byte_app, Ha, IH.
Qed.

(** X11.  When no field of the event holds a newline, the line [Rule]
    gives holds none: what [AddUprobeEvent] appends is one line. *)
Theorem Rule_one_line (e : UprobeEvent) :
  uint64_range (Offset e) ->
  newline_free e ->
  contains_byte "010" (Rule e) = false.
Proof.
  intros Hu (Hg & He & Hp & Ha).
  destruct (hex16_digits (Offset e) Hu) as (_ & Hall & _).
  rewrite Rule_text, !contains_byte_app, Hp, (fetch_text_newline_free _ Ha).
  rewrite (hex_digits_exclude "010" _ eq_refl Hall).
  assert (Hn : contains_byte "010" (naming_clause e) = false).
  { unfold naming_clause. destruct (is_empty (Event e)); [reflexivity|].
    destruct (is_empty (Group e)); now rewrite !contains_byte_app, ?Hg, ?He. }
  rewrite Hn. unfold type_text. now destruct (ReturnProbe e).
Qed.

Lemma Rule_one_line_witness :
  uint64_range (Offset sample_event) /\
  newline_free sample_event /\
  contains_byte "010" (Rule sample_event) = false.
Proof.
  assert (H1 : uint64_range (Offset sample_event)) by reflexivity.
  assert (H2 : newline_free sample_event).
  { repeat split; try reflexivity. repeat constructor. }
  split; [exact H1|]. split; [exact H2|].
  exact (Rule_one_line sample_event H1 H2).
Defined.

(** The line of a valid event, read back. *)
Lemma parse_Rule (e : UprobeEvent) :
  valid_event e ->
  exists args,
    parse (Rule e)
    = Some {| type := if ReturnProbe e then "r" else "p"; name := naming_of e;
              binary := Path e; offset := fmt.fmtInteger16 true (Some 16) (Offset e);
              fetch_args := args |}.
Proof.
  intros (Hg1 & Hg2 & He1 & He2 & Hp & Hu).
  destruct (hex16_digits (Offset e) Hu) as (Hlen & Hall & Hval).
  set (hex := fmt.fmtInteger16 true (Some 16) (Offset e)) in *.
  assert (Hloc : contains_byte " " (location_text e) = false).
  { unfold location_text. fold hex.
    now rewrite !contains_byte_app, Hp, (hex_digits_no_space hex Hall). }
  destruct (cut_before_fetch_text (location_text e) (FetchArgs e) Hloc) as [args Hargs].
  exists args. rewrite Rule_words. unfold type_text.
  destruct (ReturnProbe e); cbn [String.append parse];
    (rewrite (cut_at " " (naming_clause e)) by now apply naming_clause_no_space);
    cbn [parse_type byte_eqb]; cbn; rewrite Hargs;
    rewrite parse_naming_clause by assumption;
    unfold location_text; fold hex;
    rewrite parse_location_text by assumption; reflexivity.
Qed.

Lemma naming_of_clause (e1 e2 : UprobeEvent) :
  naming_of e1 = naming_of e2 ->
  naming_clause e1 = naming_clause e2 /\
  Event e1 = Event e2 /\
  (Event e1 <> "" -> Group e1 = Group e2).
Proof.
  unfold naming_of, naming_clause.
  destruct (Event e1) as [|c1 ev1] eqn:E1, (Event e2) as [|c2 ev2] eqn:E2;
    cbn [is_empty].
  - intros _. split; [reflexivity|]. split; [reflexivity | congruence].
  - destruct (is_empty (Group e2)); discriminate.
  - destruct (is_empty (Group e1)); discriminate.
  - destruct (Group e1) as [|g1 gr1] eqn:G1, (Group e2) as [|g2 gr2] eqn:G2;
      cbn [is_empty]; intros H; try discriminate; injection H; intros; subst;
      (split; [reflexivity|]); (split; [reflexivity|]); intros _; reflexivity.
Qed.

(** X12.  Two valid events with the same rule line are of the same
    kind, have the same naming clause, the same path and the same
    offset, and their fetch arguments read the same. *)
Theorem Rule_injective (e1 e2 : UprobeEvent) :
  valid_event e1 ->
  valid_event e2 ->
  Rule e1 = Rule e2 ->
  ReturnProbe e1 = ReturnProbe e2 /\
  Event e1 = Event e2 /\
  (Event e1 <> "" -> Group e1 = Group e2) /\
  Path e1 = Path e2 /\
  Offset e1 = Offset e2 /\
  fetch_text (FetchArgs e1) = fetch_text (FetchArgs e2).
Proof.
  intros H1 H2 HR.
  destruct (parse_Rule e1 H1) as [a1 P1]. destruct (parse_Rule e2 H2) as [a2 P2].
  rewrite HR, P2 in P1. injection P1 as Ht Hn Hb Ho _.
  destruct H1 as (_ & _ & _ & _ & _ & Hu1). destruct H2 as (_ & _ & _ & _ & _ & Hu2).
  destruct (hex16_digits _ Hu1) as (_ & _ & V1). destruct (hex16_digits _ Hu2) as (_ & _ & V2).
  symmetry in Hn. destruct (naming_of_clause e1 e2 Hn) as (Hc & Hev & Hgr).
  assert (Hrp : ReturnProbe e1 = ReturnProbe e2)
    by (destruct (ReturnProbe e1), (ReturnProbe e2); congruence).
  assert (Hoff : Offset e1 = Offset e2) by (rewrite <- V1, <- V2; now rewrite Ho).
  repeat split; try assumption; try congruence.
  rewrite !Rule_text in HR. unfold type_text in HR. rewrite Hrp, Hc, <- Hb, Hoff in HR.
  repeat (apply String.app_inj in HR). exact HR.
Qed.

Lemma Rule_injective_witness :
  let e2 := {| ReturnProbe := true; Group := "grp"; Event := "ev"; Path := "/bin/true";
               Offset := 256;
               FetchArgs := [ {| FetchArg_Type := "s32"; FetchArg_String := "%ax %bx" |} ] |} in
  valid_event sample_event /\
  valid_event e2 /\
  Rule sample_event = Rule e2 /\
  fetch_text (FetchArgs sample_event) = fetch_text (FetchArgs e2).
Proof.
  intros e2.
  assert (H1 : valid_event sample_event) by (repeat split; reflexivity).
  assert (H2 : valid_event e2) by (repeat split; reflexivity).
  assert (H3 : Rule sample_event = Rule e2) by reflexivity.
  split; [exact H1|]. split; [exact H2|]. split; [exact H3|].
  exact (proj2 (proj2 (proj2 (proj2 (proj2 (Rule_injective sample_event e2 H1 H2 H3)))))).
Defined.

End RuleMore.

(** * Registering probes one after the other *)
Section Appending.
Import os tracefs.










End Appending.

Section AppendingChecks.
Import os tracefs.





End AppendingChecks.
